(** * Running-total stacked bar chart visual (src/src/visual.ts)

    Shallow embedding of the data pipeline of [Visual.update]:
    [sortQuarters], [buildDataArray], [computeRunningTotals],
    [transformToStackedData], and the computation of the vertical
    domain.  Numbers are modelled by their integral values ([Z]);
    floating point rounding is outside the model. *)

From Stdlib Require Import ZArith Lia Sorting.Sorted.
From stdpp Require Import base list strings gmap pretty.

Open Scope Z_scope.

(** ** JavaScript values *)

(** The primitive values a Power BI cell may hold, plus [JObj] for
    objects reached through property lookups (functions and
    [Object.prototype]); [JObj t] converts to the string [t]. *)
Inductive jsval :=
| JNum (z : Z)
| JNaN
| JStr (s : string)
| JBool (b : bool)
| JNull
| JUndef
| JObj (tag : string).

Definition truthy (v : jsval) : bool :=
  match v with
  | JNum z => negb (Z.eqb z 0)
  | JNaN => false
  | JStr s => negb (String.eqb s "")
  | JBool b => b
  | JNull | JUndef => false
  | JObj _ => true
  end.

(** [a || b] *)
Definition js_or (a b : jsval) : jsval := if truthy a then a else b.

(** ToString *)
Definition js_to_string (v : jsval) : string :=
  match v with
  | JNum z => pretty z
  | JNaN => "NaN"
  | JStr s => s
  | JBool true => "true"
  | JBool false => "false"
  | JNull => "null"
  | JUndef => "undefined"
  | JObj t => t
  end.

(** ToNumber on the operands that reach the numeric branch of [+]
    ([None] is NaN). *)
Definition js_to_number (v : jsval) : option Z :=
  match v with
  | JNum z => Some z
  | JBool b => Some (if b then 1 else 0)
  | JNull => Some 0
  | _ => None
  end.

(** Operands whose ToPrimitive is a string: strings, and the objects of
    the model (their [valueOf] returns the object itself). *)
Definition stringy (v : jsval) : bool :=
  match v with JStr _ | JObj _ => true | _ => false end.

(** The binary [+] operator. *)
Definition js_add (a b : jsval) : jsval :=
  if stringy a || stringy b then JStr (js_to_string a +:+ js_to_string b)
  else match js_to_number a, js_to_number b with
       | Some x, Some y => JNum (x + y)
       | _, _ => JNaN
       end.

(** ** Plain objects used as dictionaries

    An object literal ([{}] or [{ quarter: q }]) is its list of own
    properties in insertion order; reads fall back to [Object.prototype]. *)
Definition obj := list (string * jsval).

Definition object_prototype : jsval := JObj "[object Object]".

Definition native_fn (name : string) : jsval :=
  JObj ("function " +:+ name +:+ "() { [native code] }").

(** Properties inherited from [Object.prototype]. *)
Definition proto_get (k : string) : jsval :=
  match k with
  | "__proto__" => object_prototype
  | "constructor" => native_fn "Object"
  | "toString" => native_fn "toString"
  | "toLocaleString" => native_fn "toLocaleString"
  | "valueOf" => native_fn "valueOf"
  | "hasOwnProperty" => native_fn "hasOwnProperty"
  | "isPrototypeOf" => native_fn "isPrototypeOf"
  | "propertyIsEnumerable" => native_fn "propertyIsEnumerable"
  | "__defineGetter__" => native_fn "__defineGetter__"
  | "__defineSetter__" => native_fn "__defineSetter__"
  | "__lookupGetter__" => native_fn "__lookupGetter__"
  | "__lookupSetter__" => native_fn "__lookupSetter__"
  | _ => JUndef
  end%string.

Fixpoint own_get (o : obj) (k : string) : option jsval :=
  match o with
  | [] => None
  | (k', v) :: o' => if String.eqb k k' then Some v else own_get o' k
  end.

(** [o[k]] *)
Definition obj_get (o : obj) (k : string) : jsval :=
  match own_get o k with Some v => v | None => proto_get k end.

Fixpoint own_set (o : obj) (k : string) (v : jsval) : obj :=
  match o with
  | [] => [(k, v)]
  | (k', v') :: o' =>
      if String.eqb k k' then (k', v) :: o' else (k', v') :: own_set o' k v
  end.

(** [o[k] = v].  Writing ["__proto__"] goes to the inherited accessor,
    which ignores primitives and leaves the object unchanged when given
    [Object.prototype], its prototype already: the only values the
    program writes there. *)
Definition obj_set (o : obj) (k : string) (v : jsval) : obj :=
  if String.eqb k "__proto__" then o else own_set o k v.

(** ** Records of the pipeline *)

Record DataPoint := mkDataPoint {
  quarter : string;
  category : string;
  value : jsval
}.

Record ProcessedDataPoint := mkProcessed {
  p_quarter : string;
  p_category : string;
  p_value : jsval;
  runningTotal : jsval
}.

(** [StackedDataPoint]: an object literal [{ quarter: q }] extended with
    one property per category. *)
Definition StackedDataPoint := obj.

(** ** sortQuarters: [quarters.sort((a, b) => a.localeCompare(b))]

    [Array.prototype.sort] is stable; for a consistent comparator its
    result is the stable insertion sort below.  The comparator
    [localeCompare] is a parameter of the pipeline. *)
Section Sorting.
Variable localeCompare : string -> string -> comparison.

Fixpoint insert_sorted (x : string) (l : list string) : list string :=
  match l with
  | [] => [x]
  | y :: l' =>
      match localeCompare x y with
      | Lt => x :: y :: l'
      | _ => y :: insert_sorted x l'
      end
  end.

(** Elements are inserted left to right, each after every element it
    does not precede: equal labels keep their input order. *)
Definition sort_strings (l : list string) : list string :=
  fold_left (fun acc x => insert_sorted x acc) l [].

End Sorting.

(** ** buildDataArray *)

(** One group of [values.grouped()]: its name and the value arrays of
    its measure columns ([group.values[m].values]). *)
Record group := mkGroup {
  gname : string;
  gmeasures : list (list jsval)
}.

(** [valueColumn.values[i]]: reading past the end gives [undefined]. *)
Definition cell (col : list jsval) (i : nat) : jsval :=
  default JUndef (col !! i).

(** The inner loop over [i] for category [cat] read from [valueColumn]:
    [value = (valueColumn.values[i] as number) || 0]. *)
Definition build_row (quarters : list string) (cat : string) (col : list jsval)
  : list DataPoint :=
  imap (fun i q => mkDataPoint q cat (js_or (cell col i) (JNum 0))) quarters.

(** The outer loop over [j]; [None] is the [TypeError] raised when
    [values.grouped()[j]] is undefined (reading its [values]), or when its
    first measure [valueColumn] is undefined and the inner loop reads
    [valueColumn.values[i]], which happens only if there is a period.  With
    no period an undefined [valueColumn] is never read and the row is empty. *)
Fixpoint build_from (quarters : list string) (groups : list group)
    (j : nat) (cats : list string) : option (list DataPoint) :=
  match cats with
  | [] => Some []
  | cat :: cats' =>
      match groups !! j with
      | None => None
      | Some g =>
          match gmeasures g !! 0%nat, quarters with
          | None, _ :: _ => None
          | valueColumn, _ =>
              match build_from quarters groups (S j) cats' with
              | None => None
              | Some rest =>
                  Some (build_row quarters cat (default [] valueColumn) ++ rest)
              end
          end
      end
  end.

Definition buildDataArray (quarters seriesCategories : list string)
    (groups : list group) : option (list DataPoint) :=
  build_from quarters groups 0 seriesCategories.

(** ** computeRunningTotals *)

(** One iteration of [data.forEach]: the accumulator object
    [runningTotals] and the array [processedData]. *)
Definition crt_step (st : obj * list ProcessedDataPoint) (d : DataPoint)
  : obj * list ProcessedDataPoint :=
  let (runningTotals, processedData) := st in
  let key := category d in
  let rt1 :=
    if negb (truthy (obj_get runningTotals key))
    then obj_set runningTotals key (JNum 0) else runningTotals in
  let rt2 := obj_set rt1 key (js_add (obj_get rt1 key) (value d)) in
  (rt2, processedData ++
          [mkProcessed (quarter d) (category d) (value d) (obj_get rt2 key)]).

Definition computeRunningTotals (data : list DataPoint) : list ProcessedDataPoint :=
  snd (fold_left crt_step data ([], [])).

(** ** transformToStackedData *)

(** [processedData.find(d => d.quarter === quarter && d.category === category)] *)
Definition find_point (processedData : list ProcessedDataPoint)
    (q c : string) : option ProcessedDataPoint :=
  find (fun d => String.eqb (p_quarter d) q && String.eqb (p_category d) c)
       processedData.

Definition stack_field (processedData : list ProcessedDataPoint)
    (q c : string) : jsval :=
  match find_point processedData q c with
  | Some d => runningTotal d
  | None => JNum 0
  end.

(** The record built for one quarter. *)
Definition stack_record (processedData : list ProcessedDataPoint)
    (seriesCategories : list string) (q : string) : StackedDataPoint :=
  fold_left (fun dp c => obj_set dp c (stack_field processedData q c))
            seriesCategories [("quarter", JStr q)].

Definition transformToStackedData (processedData : list ProcessedDataPoint)
    (quarters seriesCategories : list string) : list StackedDataPoint :=
  map (stack_record processedData seriesCategories) quarters.

(** ** The vertical domain

    [d3.max(stackedData, d => { let total = 0;
       seriesCategories.forEach(c => total += d[c] as number || 0);
       return total; }) || 0] *)

(** The accessor: [total += (d[c] || 0)] over the categories. *)
Definition stack_total (seriesCategories : list string) (d : StackedDataPoint)
  : jsval :=
  fold_left (fun total c => js_add total (js_or (obj_get d c) (JNum 0)))
            seriesCategories (JNum 0).

(** [d3.max] keeps [value] when [value != null] and
    [max < value || (max === undefined && value >= value)]: [null],
    [undefined] and [NaN] are skipped.  The comparison is modelled for
    numbers; any other value makes the result [None] (outside the model).
    The inner option is the result, [None] for [undefined]. *)
Fixpoint d3_max_from (mx : option Z) (l : list jsval) : option (option Z) :=
  match l with
  | [] => Some mx
  | v :: l' =>
      match v with
      | JNull | JUndef | JNaN => d3_max_from mx l'
      | JNum z =>
          match mx with
          | None => d3_max_from (Some z) l'
          | Some m => d3_max_from (if m <? z then Some z else Some m) l'
          end
      | _ => None
      end
  end.

Definition d3_max (l : list jsval) : option (option Z) := d3_max_from None l.

(** [maxY]: the [d3.max] result [|| 0]. *)
Definition maxY (stackedData : list StackedDataPoint)
    (seriesCategories : list string) : option Z :=
  match d3_max (map (stack_total seriesCategories) stackedData) with
  | None => None
  | Some None => Some 0
  | Some (Some z) => Some (if Z.eqb z 0 then 0 else z)
  end.

(** [yScale.domain([0, maxY])] *)
Definition y_domain (stackedData : list StackedDataPoint)
    (seriesCategories : list string) : option (Z * Z) :=
  option_map (fun m => (0, m)) (maxY stackedData seriesCategories).

(** ** update *)

Record CategoryColumn := mkCategoryColumn { cat_values : list string }.

(** [categorical.values]: its length (the number of value columns) and
    [values.grouped()]. *)
Record ValueColumns := mkValueColumns {
  vlength : nat;
  grouped : list group
}.

Record Categorical := mkCategorical {
  categories : option (list CategoryColumn);
  values : option ValueColumns
}.

Record DataView := mkDataView { categorical : option Categorical }.

(** [options.dataViews] (an entry may be [undefined]) and the viewport. *)
Record VisualUpdateOptions := mkOptions {
  dataViews : list (option DataView);
  vp_width : Z;
  vp_height : Z
}.

(** What the drawing is built from: the x domain, the stacked records
    handed to [d3.stack], and the y domain. *)
Record Chart := mkChart {
  ch_quarters : list string;
  ch_categories : list string;
  ch_stacked : list StackedDataPoint;
  ch_ydomain : option (Z * Z)
}.

Inductive node := Svg (width height : Z) (c : Chart).

Section Update.
Variable localeCompare : string -> string -> comparison.

(** The children of [this.target] after [update]; [None] when the call
    throws.  [category.values.map(...)] allocates a fresh array, which
    [sortQuarters] sorts in place: its value is [sort_strings]. *)
Definition update (options : VisualUpdateOptions) : option (list node) :=
  (* the target is emptied first *)
  match head (dataViews options) with
  | None | Some None => Some []
  | Some (Some dataView) =>
      match categorical dataView with
      | None => Some []
      | Some categorical =>
          match categories categorical, values categorical with
          | None, _ | Some [], _ | _, None => Some []
          | Some (category :: _), Some values =>
              if Nat.eqb (vlength values) 0 then Some [] else
              let quarters := sort_strings localeCompare (cat_values category) in
              let seriesCategories := map gname (grouped values) in
              match buildDataArray quarters seriesCategories (grouped values) with
              | None => None
              | Some data =>
                  let processedData := computeRunningTotals data in
                  let stackedData :=
                    transformToStackedData processedData quarters seriesCategories in
                  Some [Svg (vp_width options) (vp_height options)
                          (mkChart quarters seriesCategories stackedData
                             (y_domain stackedData seriesCategories))]
              end
          end
      end
  end.

End Update.

(** ** sortQuarters on the heap of arrays

    [Array.prototype.sort] sorts the array it is called on and returns
    that same array.  Arrays live in a heap of locations. *)
Definition sortQuarters (localeCompare : string -> string -> comparison)
    (h : gmap nat (list string)) (a : nat)
  : option (gmap nat (list string) * nat) :=
  match h !! a with
  | None => None
  | Some xs => Some (<[a := sort_strings localeCompare xs]> h, a)
  end.

(** The first two statements of [update] on the heap, [src] being the
    location of [category.values]:
    [let quarters = category.values.map(value => value as string)]
    allocates a fresh array holding the same labels (the cast does nothing
    at run time), and [quarters = this.sortQuarters(quarters)] sorts that
    array. *)
Definition update_quarters (localeCompare : string -> string -> comparison)
    (h : gmap nat (list string)) (src : nat)
  : option (gmap nat (list string) * nat) :=
  match h !! src with
  | None => None
  | Some vs =>
      let quarters := fresh (dom h) in
      sortQuarters localeCompare (<[quarters := vs]> h) quarters
  end.

(** Two arrays on the heap: the category labels at 0 and another array at 1. *)
Definition two_arrays : gmap nat (list string) :=
  <[1%nat := ["z"; "y"]%string]> {[0%nat := ["b"; "a"]%string]}.

(** Periods and value groups with a [null] cell, and a second measure in
    group A, which [buildDataArray] does not read. *)
Definition layout_quarters : list string := ["Q1"; "Q2"]%string.

Definition layout_groups : list group :=
  [mkGroup "A" [[JNum 10; JNum 5]; [JNum 99; JNum 98]];
   mkGroup "B" [[JNull; JNum 7]]]%string.

(** Stacked records of two periods and two categories. *)
Definition two_period_records : list StackedDataPoint :=
  [[("quarter", JStr "Q1"); ("A", JNum 10); ("B", JNum 3)];
   [("quarter", JStr "Q2"); ("A", JNum 15); ("B", JNum 10)]]%string.

(** The value groups of the basic scenario. *)
Definition basic_groups : list group :=
  [mkGroup "A" [[JNum 10; JNum 5]]; mkGroup "B" [[JNum 3; JNum 7]]]%string.

(** ** The vertical bound in the words of the spec

    [maxStackedTotal]: the maximum, over the stacked records, of the sum
    over the categories of each category's (numeric) field; 0 when there
    is no record.  Stated from the spec, to be compared with [maxY]. *)
Definition field_number (d : StackedDataPoint) (c : string) : Z :=
  match obj_get d c with JNum z => z | _ => 0 end.

Definition stacked_sum (seriesCategories : list string) (d : StackedDataPoint) : Z :=
  fold_right Z.add 0 (map (field_number d) seriesCategories).

Definition spec_maxStackedTotal (stackedData : list StackedDataPoint)
    (seriesCategories : list string) : Z :=
  match map (stacked_sum seriesCategories) stackedData with
  | [] => 0
  | x :: xs => fold_left Z.max xs x
  end.

(** ** Running totals of one category, in the words of the spec *)

(** A key that no object inherits from [Object.prototype]. *)
Definition ordinary_key (k : string) : Prop := proto_get k = JUndef.

Fixpoint prefix_sums (s : Z) (l : list Z) : list Z :=
  match l with
  | [] => []
  | x :: l' => (s + x) :: prefix_sums (s + x) l'
  end.

(** The numeric values of the records of category [k], in order. *)
Definition values_of (k : string) (data : list DataPoint) : list Z :=
  map (fun d => match value d with JNum z => z | _ => 0 end)
      (List.filter (fun d => String.eqb (category d) k) data).

(** The running totals emitted for category [k], in order. *)
Definition totals_of (k : string) (out : list ProcessedDataPoint) : list jsval :=
  map runningTotal (List.filter (fun p => String.eqb (p_category p) k) out).

(** A comparator by length, used to exercise the sorting lemmas. *)
Definition length_compare (a b : string) : comparison :=
  Nat.compare (String.length a) (String.length b).

(** ** d3.stack

    [d3.stack().keys(seriesCategories)(stackedData)] with the default
    order ([stackOrderNone]), offset ([stackOffsetNone]) and value
    accessor ([d[key]]).  Numbers in the stack are [option Z], [None]
    being NaN. *)
Definition num := option Z.

Definition num_add (a b : num) : num :=
  match a, b with Some x, Some y => Some (x + y) | _, _ => None end.

Definition num_sub (a b : num) : num :=
  match a, b with Some x, Some y => Some (x - y) | _, _ => None end.

(** Unary [+v].  Strings are parsed by ToNumber, which is not modelled:
    a string gives [None] (outside the model). *)
Definition js_unary_plus (v : jsval) : option num :=
  match v with
  | JNum z => Some (Some z)
  | JNaN | JUndef => Some None
  | JBool b => Some (Some (if b then 1 else 0))
  | JNull => Some (Some 0)
  | JStr _ => None
  | JObj _ => Some None
  end.

(** A point of a series: [[d[0], d[1]]] with its [.data]. *)
Record StackPoint := mkPoint {
  sp_base : num;
  sp_top : num;
  sp_data : StackedDataPoint
}.

(** The series of key [k] before the offset:
    [(sz[i][j] = [0, +value(d, key)]).data = d] for every record. *)
Definition stack_layer (data : list StackedDataPoint) (k : string)
  : option (list StackPoint) :=
  mapM (fun d => n ← js_unary_plus (obj_get d k); Some (mkPoint (Some 0) n d)) data.

(** [stackOffsetNone], one point:
    [s1[j][1] += s1[j][0] = isNaN(s0[j][1]) ? s0[j][0] : s0[j][1]]. *)
Definition offset_point (prev cur : StackPoint) : StackPoint :=
  let b := match sp_top prev with None => sp_base prev | Some _ => sp_top prev end in
  mkPoint b (num_add (sp_top cur) b) (sp_data cur).

(** The loop over the series after the first, each one offset by the
    already offset series before it. *)
Fixpoint offset_from (prev : list StackPoint) (rest : list (list StackPoint))
  : list (list StackPoint) :=
  match rest with
  | [] => []
  | s :: rest' =>
      let s' := zip_with offset_point prev s in s' :: offset_from s' rest'
  end.

Definition offset_none (series : list (list StackPoint)) : list (list StackPoint) :=
  match series with
  | [] => []
  | s0 :: rest => s0 :: offset_from s0 rest
  end.

Definition d3_stack (keys : list string) (data : list StackedDataPoint)
  : option (list (list StackPoint)) :=
  series ← mapM (stack_layer data) keys; Some (offset_none series).

(** ** Drawing the series *)

Definition schemeCategory10 : list string :=
  ["#1f77b4"; "#ff7f0e"; "#2ca02c"; "#d62728"; "#9467bd";
   "#8c564b"; "#e377c2"; "#7f7f7f"; "#bcbd22"; "#17becf"]%string.

(** [d3.scaleBand().domain(quarters)]: an ordinal domain keeps the first
    occurrence of each value. *)
Fixpoint dedup_from (seen : list string) (l : list string) : list string :=
  match l with
  | [] => []
  | x :: l' =>
      if bool_decide (x ∈ seen) then dedup_from seen l'
      else x :: dedup_from (x :: seen) l'
  end.

Definition band_domain (quarters : list string) : list string :=
  dedup_from [] quarters.

Fixpoint index_of (q : string) (l : list string) : option nat :=
  match l with
  | [] => None
  | x :: l' => if String.eqb q x then Some 0%nat else S <$> index_of q l'
  end.

(** The band of [xScale(v)]; [None] is [undefined] (the [?? 0] branch):
    only the strings of the domain have a band. *)
Definition band_index (dom : list string) (v : jsval) : option nat :=
  match v with JStr q => index_of q dom | _ => None end.

(** A rect drawn from one stack point: the band of [d.data.quarter],
    [d[0]] and [d[1]].  The label [d[1] - d[0]] drawn over it is a
    floating-point difference and is not modelled. *)
Record Bar := mkBar {
  bar_band : option nat;
  bar_base : num;
  bar_top : num
}.

(** A [g.series] element with its fill and its bars. *)
Record Series := mkSeries {
  series_fill : string;
  series_bars : list Bar
}.

Definition render_bar (dom : list string) (p : StackPoint) : Bar :=
  mkBar (band_index dom (obj_get (sp_data p) "quarter")) (sp_base p) (sp_top p).

(** [.attr("fill", (d, i) => d3.schemeCategory10[i % 10])], then one
    rect per point of the series. *)
Definition render (quarters : list string) (stackedSeries : list (list StackPoint))
  : list Series :=
  imap (fun i s => mkSeries (nth (i mod 10) schemeCategory10 EmptyString)
                            (map (render_bar (band_domain quarters)) s))
       stackedSeries.

(** The series drawn for a chart built by [update]. *)
Definition draw_chart (ch : Chart) : option (list Series) :=
  stackedSeries ← d3_stack (ch_categories ch) (ch_stacked ch);
  Some (render (ch_quarters ch) stackedSeries).

(** The offset series in closed form, when every field is a number:
    layer [k] after the keys [pre] spans from the sum of the fields of
    [pre] to that sum plus the field of [k]. *)
Definition cum_layer (data : list StackedDataPoint) (pre : list string) (k : string)
  : list StackPoint :=
  map (fun d => mkPoint (Some (stacked_sum pre d)) (Some (stacked_sum (pre ++ [k]) d)) d)
      data.

Fixpoint stack_rest (data : list StackedDataPoint) (pre ks : list string)
  : list (list StackPoint) :=
  match ks with
  | [] => []
  | k :: ks' => cum_layer data pre k :: stack_rest data (pre ++ [k]) ks'
  end.

(** A point of the series of key [k] before the offset, and after it:
    the base is a number and the top is the field added to it. *)
Definition raw_point (k : string) (p : StackPoint) (d : StackedDataPoint) : Prop :=
  sp_data p = d /\ sp_base p = Some 0 /\ js_unary_plus (obj_get d k) = Some (sp_top p).

Definition offset_point_ok (k : string) (p : StackPoint) (d : StackedDataPoint) : Prop :=
  sp_data p = d /\ exists b v, sp_base p = Some b /\
    js_unary_plus (obj_get d k) = Some v /\ sp_top p = num_add v (Some b).

(** A chart with a NaN field, to exercise the drawing lemmas. *)
Definition nan_chart : Chart :=
  mkChart ["Q1"; "Q2"]%string ["A"; "B"; "C"]%string
    [[("quarter", JStr "Q1"); ("A", JNum 10); ("B", JNaN); ("C", JNum 4)];
     [("quarter", JStr "Q2"); ("A", JNum 15); ("B", JNum 3); ("C", JNum 6)]]%string
    None.

(** ** The pipeline's totals, in closed form *)

(** The number a value cell stands for once read as [cell || 0], for the
    cells Power BI passes: numbers and [null]. *)
Definition value_z (v : jsval) : Z :=
  match v with JNum z => z | _ => 0 end.

(** The sum of the first [i + 1] cells of a value column. *)
Definition cell_total (col : list jsval) (i : nat) : Z :=
  fold_right Z.add 0 (map (fun i' => value_z (cell col i')) (seq 0 (S i))).

(** The value column a group is read from: its first measure. *)
Definition col_of (g : group) : list jsval := default [] (gmeasures g !! 0%nat).

(** The input of the basic scenario: labels ["2023Q2"; "2023Q1"], groups
    A = [10; 5] and B = [3; 7]. *)
Definition basic_categorical : Categorical :=
  mkCategorical (Some [mkCategoryColumn ["2023Q2"; "2023Q1"]%string])
                (Some (mkValueColumns 1 basic_groups)).

Definition basic_options : VisualUpdateOptions :=
  mkOptions [Some (mkDataView (Some basic_categorical))] 300 200.

(** * Properties *)

(** ** Lemmas on objects *)

Lemma own_get_own_set_eq (o : obj) (k : string) (v : jsval) :
  own_get (own_set o k v) k = Some v.
Proof.
  induction o as [|[k' v'] o IH]; simpl.
  - by rewrite String.eqb_refl.
  - destruct (String.eqb_spec k k') as [->|Hne]; simpl.
    + by rewrite String.eqb_refl.
    + apply String.eqb_neq in Hne. rewrite Hne. exact IH.
Qed.

Lemma own_get_own_set_ne (o : obj) (k k' : string) (v : jsval) :
  k <> k' -> own_get (own_set o k' v) k = own_get o k.
Proof.
  intros Hne. induction o as [|[k0 v0] o IH]; simpl.
  - destruct (String.eqb_spec k k'); [congruence|done].
  - destruct (String.eqb_spec k' k0) as [->|Hk0]; simpl.
    + destruct (String.eqb_spec k k0); [congruence|done].
    + destruct (String.eqb k k0); [done|exact IH].
Qed.

Lemma obj_get_set_ne (o : obj) (k k' : string) (v : jsval) :
  k <> k' -> obj_get (obj_set o k' v) k = obj_get o k.
Proof.
  intros Hne. unfold obj_set, obj_get.
  destruct (String.eqb k' "__proto__"); [done|].
  by rewrite own_get_own_set_ne.
Qed.

Lemma obj_get_set_eq (o : obj) (k : string) (v : jsval) :
  k <> "__proto__"%string -> obj_get (obj_set o k v) k = v.
Proof.
  intros Hk. unfold obj_set, obj_get.
  destruct (String.eqb_spec k "__proto__"); [congruence|].
  by rewrite own_get_own_set_eq.
Qed.

(** ** computeRunningTotals keeps the fields of its input *)

Definition dp_fields (d : DataPoint) : string * string * jsval :=
  (quarter d, category d, value d).

Definition pdp_fields (p : ProcessedDataPoint) : string * string * jsval :=
  (p_quarter p, p_category p, p_value p).

Lemma crt_fold_fields (data : list DataPoint) (st : obj * list ProcessedDataPoint) :
  pdp_fields <$> snd (fold_left crt_step data st) =
  (pdp_fields <$> snd st) ++ (dp_fields <$> data).
Proof.
  revert st. induction data as [|d data IH]; intros [rt acc]; simpl.
  - by rewrite app_nil_r.
  - rewrite IH. simpl. rewrite fmap_app, <- app_assoc. done.
Qed.

Lemma computeRunningTotals_fields (data : list DataPoint) :
  pdp_fields <$> computeRunningTotals data = dp_fields <$> data.
Proof. unfold computeRunningTotals. by rewrite crt_fold_fields. Qed.

(** ** C10 *)

(** C10: [computeRunningTotals] returns as many records as it is given,
    and the record at each index has the quarter, category and value of
    the input record at that index; only [runningTotal] is added. *)
Theorem computeRunningTotals_frame (data : list DataPoint) :
  length (computeRunningTotals data) = length data /\
  forall (i : nat) (d : DataPoint), data !! i = Some d ->
    exists p, computeRunningTotals data !! i = Some p /\
      p_quarter p = quarter d /\ p_category p = category d /\
      p_value p = value d.
Proof.
  pose proof (computeRunningTotals_fields data) as Hf. split.
  - apply (f_equal length) in Hf. by rewrite !length_fmap in Hf.
  - intros i d Hd. apply (f_equal (fun l => l !! i)) in Hf.
    rewrite !list_lookup_fmap, Hd in Hf. simpl in Hf.
    destruct (computeRunningTotals data !! i) as [p|]; simpl in Hf; [|done].
    injection Hf as Hq Hc Hv. eauto.
Qed.

(** ** C1 *)

(** C1: with periods ["2023Q2"; "2023Q1"], groups A = [10; 5] and
    B = [3; 7], and any collation placing "2023Q1" before "2023Q2": the
    periods sort to ["2023Q1"; "2023Q2"], array index i is bound to the
    i-th sorted period (A: 10 at 2023Q1, 5 at 2023Q2; B: 3 at 2023Q1, 7 at
    2023Q2), and the running totals are A: 10, 15 and B: 3, 10. *)
Theorem basic_scenario (localeCompare : string -> string -> comparison)
    (Hlt : localeCompare "2023Q1"%string "2023Q2"%string = Lt) :
  let quarters := sort_strings localeCompare ["2023Q2"; "2023Q1"]%string in
  quarters = ["2023Q1"; "2023Q2"]%string /\
  buildDataArray quarters ["A"; "B"]%string basic_groups =
    Some [mkDataPoint "2023Q1" "A" (JNum 10); mkDataPoint "2023Q2" "A" (JNum 5);
          mkDataPoint "2023Q1" "B" (JNum 3); mkDataPoint "2023Q2" "B" (JNum 7)]%string /\
  option_map computeRunningTotals
      (buildDataArray quarters ["A"; "B"]%string basic_groups) =
    Some [mkProcessed "2023Q1" "A" (JNum 10) (JNum 10);
          mkProcessed "2023Q2" "A" (JNum 5) (JNum 15);
          mkProcessed "2023Q1" "B" (JNum 3) (JNum 3);
          mkProcessed "2023Q2" "B" (JNum 7) (JNum 10)]%string.
Proof.
  simpl. unfold sort_strings. simpl. rewrite Hlt.
  split; [done|]. split; reflexivity.
Qed.

Lemma basic_scenario_witness :
  String.compare "2023Q1" "2023Q2" = Lt /\
  (let quarters := sort_strings String.compare ["2023Q2"; "2023Q1"]%string in
  quarters = ["2023Q1"; "2023Q2"]%string /\
  buildDataArray quarters ["A"; "B"]%string basic_groups =
    Some [mkDataPoint "2023Q1" "A" (JNum 10); mkDataPoint "2023Q2" "A" (JNum 5);
          mkDataPoint "2023Q1" "B" (JNum 3); mkDataPoint "2023Q2" "B" (JNum 7)]%string /\
  option_map computeRunningTotals
      (buildDataArray quarters ["A"; "B"]%string basic_groups) =
    Some [mkProcessed "2023Q1" "A" (JNum 10) (JNum 10);
          mkProcessed "2023Q2" "A" (JNum 5) (JNum 15);
          mkProcessed "2023Q1" "B" (JNum 3) (JNum 3);
          mkProcessed "2023Q2" "B" (JNum 7) (JNum 10)]%string).
Proof. split; [reflexivity|]. apply (basic_scenario String.compare). reflexivity. Defined.

(** ** Reads of the accumulator and record objects at inherited keys *)

(** C5 (failing input): the accumulator object [runningTotals] is a plain
    [{}], so for a category named "constructor" the test
    [!runningTotals[key]] sees the inherited [Object] function, the
    accumulator is never set to 0, and [+=] concatenates strings. *)
Theorem running_totals_constructor_key :
  computeRunningTotals [mkDataPoint "Q1" "constructor" (JNum 5)]%string =
    [mkProcessed "Q1" "constructor" (JNum 5)
       (JStr "function Object() { [native code] }5")]%string.
Proof. reflexivity. Qed.

(** C2 (failing input): for the category "constructor" with values 1 and 2
    (both non-negative) the emitted running totals are strings, not the
    numbers 1 and 3. *)
Theorem running_totals_constructor_pipeline :
  option_map computeRunningTotals
    (buildDataArray ["2023Q1"; "2023Q2"] ["constructor"]
       [mkGroup "constructor" [[JNum 1; JNum 2]]])%string =
  Some [mkProcessed "2023Q1" "constructor" (JNum 1)
          (JStr "function Object() { [native code] }1");
        mkProcessed "2023Q2" "constructor" (JNum 2)
          (JStr "function Object() { [native code] }12")]%string.
Proof. reflexivity. Qed.

(** C3 (failing input): for a category named "__proto__" the assignment
    [dataPoint[category] = 5] goes to the inherited [__proto__] setter and
    is dropped; reading the field gives [Object.prototype], not 5. *)
Theorem stacked_proto_key :
  transformToStackedData
    [mkProcessed "Q1" "__proto__" (JNum 5) (JNum 5)] ["Q1"] ["__proto__"]%string =
    [[("quarter", JStr "Q1")]]%string /\
  obj_get [("quarter", JStr "Q1")]%string "__proto__" = object_prototype.
Proof. split; reflexivity. Qed.

(** ** The pivot *)

Lemma stack_fold_absent (processedData : list ProcessedDataPoint) (q c : string)
    (cats : list string) (o : obj) :
  c ∉ cats ->
  obj_get (fold_left (fun dp c' => obj_set dp c' (stack_field processedData q c'))
             cats o) c = obj_get o c.
Proof.
  revert o. induction cats as [|c' cats IH]; intros o Hc; simpl; [done|].
  rewrite IH by set_solver. apply obj_get_set_ne. set_solver.
Qed.

Lemma stack_fold_present (processedData : list ProcessedDataPoint) (q c : string)
    (cats : list string) (o : obj) :
  c ∈ cats -> c <> "__proto__"%string ->
  obj_get (fold_left (fun dp c' => obj_set dp c' (stack_field processedData q c'))
             cats o) c = stack_field processedData q c.
Proof.
  revert o. induction cats as [|c' cats IH]; intros o Hc Hp; simpl.
  - set_solver.
  - destruct (decide (c ∈ cats)) as [Hin|Hout]; [by apply IH|].
    rewrite stack_fold_absent by done.
    assert (c = c') as -> by set_solver. by apply obj_get_set_eq.
Qed.

Lemma stack_record_field (processedData : list ProcessedDataPoint)
    (cats : list string) (q c : string) :
  c ∈ cats -> c <> "__proto__"%string ->
  obj_get (stack_record processedData cats q) c = stack_field processedData q c.
Proof. intros. by apply stack_fold_present. Qed.

Lemma map_as_fmap {A B} (f : A -> B) (l : list A) : map f l = f <$> l.
Proof. induction l as [|x l IH]; simpl; [done|]. by rewrite IH. Qed.


(** ** sortQuarters *)

Lemma insert_sorted_perm (localeCompare : string -> string -> comparison)
    (x : string) (l : list string) :
  insert_sorted localeCompare x l ≡ₚ x :: l.
Proof.
  induction l as [|y l IH]; simpl; [done|].
  destruct (localeCompare x y); [| done |];
    rewrite IH; by constructor.
Qed.

Lemma sort_fold_perm (localeCompare : string -> string -> comparison)
    (l acc : list string) :
  fold_left (fun acc x => insert_sorted localeCompare x acc) l acc ≡ₚ l ++ acc.
Proof.
  revert acc. induction l as [|x l IH]; intros acc; simpl; [done|].
  rewrite IH, insert_sorted_perm. symmetry. apply Permutation_middle.
Qed.

Lemma sort_strings_perm (localeCompare : string -> string -> comparison)
    (l : list string) :
  sort_strings localeCompare l ≡ₚ l.
Proof. unfold sort_strings. by rewrite sort_fold_perm, app_nil_r. Qed.

(** C4 (counterexample): [quarters.sort(...)] sorts in place, so the
    array passed as ["b"; "a"] holds ["a"; "b"] after the call, and the
    returned array is the argument itself (same location). *)
Lemma sortQuarters_mutates_argument :
  sortQuarters String.compare {[0%nat := ["b"; "a"]%string]} 0%nat =
    Some ({[0%nat := ["a"; "b"]%string]}, 0%nat) /\
  ["a"; "b"]%string <> ["b"; "a"]%string.
Proof.
  split; [reflexivity|done].
Qed.

(** C4 (amended): [sortQuarters] overwrites the array it is given with its
    sorted contents (a reordering of the same labels) and returns that
    same array; every other array is unchanged.  In [update] the array it
    is given is the fresh one allocated by [category.values.map]: the
    array of the host's labels, and every other array already on the
    heap, are left as they were, and the sorted labels are the ones
    [update] draws with ([sort_strings]). *)
Theorem sortQuarters_in_place (localeCompare : string -> string -> comparison) :
  (forall (h : gmap nat (list string)) (a : nat) (xs : list string),
     h !! a = Some xs ->
     exists ys, sortQuarters localeCompare h a = Some (<[a := ys]> h, a) /\
       ys = sort_strings localeCompare xs /\ ys ≡ₚ xs /\
       (forall b, b <> a -> (<[a := ys]> h) !! b = h !! b)) /\
  (forall (h : gmap nat (list string)) (src : nat) (vs : list string),
     h !! src = Some vs ->
     exists h' a, update_quarters localeCompare h src = Some (h', a) /\
       h !! a = None /\ a <> src /\
       h' !! a = Some (sort_strings localeCompare vs) /\
       h' !! src = Some vs /\
       (forall b, b <> a -> h' !! b = h !! b)).
Proof.
  split.
  - intros h a xs Ha.
    exists (sort_strings localeCompare xs). unfold sortQuarters. rewrite Ha.
    split; [done|]. split; [done|]. split; [apply sort_strings_perm|].
    intros b Hb. by apply lookup_insert_ne.
  - intros h src vs Hs.
    assert (Hf : h !! fresh (dom h) = None).
    { apply not_elem_of_dom. apply is_fresh. }
    assert (Hne : fresh (dom h) <> src) by congruence.
    unfold update_quarters, sortQuarters. rewrite Hs. simpl.
    rewrite lookup_insert_eq.
    eexists _, _. split; [reflexivity|].
    split; [done|]. split; [done|]. split; [by rewrite lookup_insert_eq|].
    assert (Hrest : forall b, b <> fresh (dom h) ->
      (<[fresh (dom h) := sort_strings localeCompare vs]>
         (<[fresh (dom h) := vs]> h)) !! b = h !! b).
    { intros b Hb. rewrite !lookup_insert_ne by congruence. done. }
    split; [|exact Hrest].
    rewrite Hrest by congruence. exact Hs.
Qed.

Lemma sortQuarters_in_place_witness :
  sortQuarters String.compare two_arrays 0%nat =
    Some (<[0%nat := ["a"; "b"]%string]> two_arrays, 0%nat) /\
  (<[0%nat := ["a"; "b"]%string]> two_arrays) !! 1%nat = Some ["z"; "y"]%string /\
  exists h' a, update_quarters String.compare two_arrays 0%nat = Some (h', a) /\
    two_arrays !! a = None /\
    h' !! a = Some ["a"; "b"]%string /\
    h' !! 0%nat = Some ["b"; "a"]%string /\
    h' !! 1%nat = Some ["z"; "y"]%string.
Proof.
  destruct (proj1 (sortQuarters_in_place String.compare) two_arrays 0%nat
              ["b"; "a"]%string eq_refl) as (ys & H1 & H2 & _ & H4).
  assert (Hys : ys = ["a"; "b"]%string) by (rewrite H2; reflexivity). subst ys.
  split; [exact H1|].
  split; [transitivity (two_arrays !! 1%nat); [apply H4; discriminate|reflexivity]|].
  destruct (proj2 (sortQuarters_in_place String.compare) two_arrays 0%nat
              ["b"; "a"]%string eq_refl) as (h' & a & U1 & U2 & U3 & U4 & U5 & U6).
  exists h', a. split; [exact U1|]. split; [exact U2|]. split; [exact U4|].
  split; [exact U5|].
  rewrite U6; [reflexivity|]. intros Ha. rewrite <- Ha in U2. vm_compute in U2. discriminate.
Defined.

(** ** buildDataArray *)

Lemma build_row_length (quarters : list string) (cat : string) (col : list jsval) :
  length (build_row quarters cat col) = length quarters.
Proof. apply length_imap. Qed.

Lemma build_row_lookup (quarters : list string) (cat : string) (col : list jsval)
    (i : nat) (q : string) :
  quarters !! i = Some q ->
  build_row quarters cat col !! i =
    Some (mkDataPoint q cat (js_or (cell col i) (JNum 0))).
Proof. intros Hq. unfold build_row. by rewrite list_lookup_imap, Hq. Qed.

Lemma build_from_layout (quarters : list string) (groups : list group)
    (cats : list string) (j : nat) :
  (forall (k : nat) (c : string), cats !! k = Some c ->
     exists g col, groups !! (j + k)%nat = Some g /\ gmeasures g !! 0%nat = Some col) ->
  exists data, build_from quarters groups j cats = Some data /\
    length data = (length cats * length quarters)%nat /\
    forall (k i : nat) (c : string) (g : group) (col : list jsval) (q : string),
      cats !! k = Some c -> groups !! (j + k)%nat = Some g ->
      gmeasures g !! 0%nat = Some col -> quarters !! i = Some q ->
      data !! (k * length quarters + i)%nat =
        Some (mkDataPoint q c (js_or (cell col i) (JNum 0))).
Proof.
  revert j. induction cats as [|c cats IH]; intros j Hg; simpl.
  - exists []. split; [done|]. split; [done|]. intros k ? ? ? ? ? Hk. done.
  - destruct (Hg 0%nat c eq_refl) as (g & col & Hj & Hcol).
    rewrite Nat.add_0_r in Hj. rewrite Hj, Hcol.
    destruct (IH (S j)) as (rest & Hrest & Hlen & Hlook).
    { intros k c' Hk. destruct (Hg (S k) c' Hk) as (g' & col' & H1 & H2).
      exists g', col'. split; [|done]. rewrite <- H1. f_equal. lia. }
    rewrite Hrest. eexists. split; [done|]. split.
    { rewrite length_app, build_row_length, Hlen. lia. }
    intros [|k] i c' g' col' q Hk Hgk Hcolk Hi; simpl in Hk.
    + injection Hk as <-. rewrite Nat.add_0_r, Hj in Hgk. injection Hgk as <-.
      rewrite Hcol in Hcolk. injection Hcolk as <-.
      rewrite lookup_app_l.
      * by apply build_row_lookup.
      * rewrite build_row_length. by eapply lookup_lt_Some.
    + rewrite lookup_app_r; rewrite build_row_length; [|lia].
      replace (S k * length quarters + i - length quarters)%nat
        with (k * length quarters + i)%nat by lia.
      apply (Hlook k i c' g' col' q Hk); [|done|done].
      rewrite <- Hgk. f_equal. lia.
Qed.

Lemma build_from_none (quarters : list string) (groups : list group)
    (cats : list string) (j : nat) :
  build_from quarters groups j cats = None <->
  exists (k : nat) (c : string), cats !! k = Some c /\
    match groups !! (j + k)%nat with
    | None => True
    | Some g => gmeasures g = [] /\ quarters <> []
    end.
Proof.
  revert j. induction cats as [|c cats IH]; intros j; simpl.
  - split; [done|]. intros (k & c & Hk & _). done.
  - split.
    + destruct (groups !! j) as [g|] eqn:Hg.
      * assert (Hrec : build_from quarters groups (S j) cats = None ->
          exists (k : nat) (c' : string), (c :: cats) !! k = Some c' /\
            match groups !! (j + k)%nat with
            | None => True
            | Some g => gmeasures g = [] /\ quarters <> []
            end).
        { intros Hr. apply IH in Hr as (k & c' & Hk & Hgk).
          exists (S k), c'. split; [done|].
          by replace (j + S k)%nat with (S j + k)%nat by lia. }
        destruct (gmeasures g) as [|col cols] eqn:Hm; destruct quarters as [|q qs];
          simpl; try (destruct (build_from _ groups (S j) cats) eqn:Hr; [done|];
                      intros _; by apply Hrec).
        intros _. exists 0%nat, c. rewrite Nat.add_0_r, Hg. done.
      * intros _. exists 0%nat, c. rewrite Nat.add_0_r, Hg. done.
    + intros ([|k] & c' & Hk & Hgk); simpl in Hk.
      * rewrite Nat.add_0_r in Hgk.
        destruct (groups !! j) as [g|]; [|done]. destruct Hgk as [Hm Hq].
        rewrite Hm. destruct quarters; [by destruct Hq|reflexivity].
      * destruct (groups !! j) as [g|]; [|done].
        replace (build_from quarters groups (S j) cats) with (@None (list DataPoint)).
        { by destruct (gmeasures g !! 0%nat), quarters. }
        symmetry. apply IH. exists k, c'. split; [done|].
        by replace (S j + k)%nat with (j + S k)%nat by lia.
Qed.

(** Whatever [buildDataArray] returns has the layout of
    [build_from_layout] at every cell it reads. *)
Lemma build_from_some_lookup (quarters : list string) (groups : list group)
    (cats : list string) (j : nat) (data : list DataPoint) :
  build_from quarters groups j cats = Some data ->
  forall (k i : nat) (c : string) (g : group) (col : list jsval) (q : string),
    cats !! k = Some c -> groups !! (j + k)%nat = Some g ->
    gmeasures g !! 0%nat = Some col -> quarters !! i = Some q ->
    data !! (k * length quarters + i)%nat =
      Some (mkDataPoint q c (js_or (cell col i) (JNum 0))).
Proof.
  intros Hb k i c g col q Hk Hg Hcol Hq.
  assert (Hne : quarters <> []) by (intros ->; done).
  destruct (build_from_layout quarters groups cats j) as (data' & Hd' & _ & Hl).
  - intros k' c' Hk'.
    destruct (groups !! (j + k')%nat) as [g'|] eqn:Hg'.
    + destruct (gmeasures g' !! 0%nat) as [col'|] eqn:Hc'; [by exists g', col'|].
      exfalso. assert (Hn : build_from quarters groups j cats = None).
      { apply build_from_none. exists k', c'. rewrite Hg'. split; [done|].
        split; [|done]. by destruct (gmeasures g'). }
      congruence.
    + exfalso. assert (Hn : build_from quarters groups j cats = None).
      { apply build_from_none. exists k', c'. by rewrite Hg'. }
      congruence.
  - rewrite Hb in Hd'. injection Hd' as <-. by apply (Hl k i c g col q).
Qed.

(** C6: when every group has a first measure, [buildDataArray] over the
    group names yields [#groups * #periods] records; the record at index
    [j * #periods + i] is the one for category j and period i, with the
    value read from cell i of group j's first measure (coerced by [|| 0]);
    no other measure is read.  So the output is category-major and
    period-minor, with exactly one record per (j, i). *)
Theorem buildDataArray_layout (quarters : list string) (groups : list group)
    (Hmeasure : Forall (fun g => gmeasures g <> []) groups) :
  exists data, buildDataArray quarters (map gname groups) groups = Some data /\
    length data = (length groups * length quarters)%nat /\
    forall (j i : nat) (g : group) (col : list jsval) (q : string),
      groups !! j = Some g -> gmeasures g !! 0%nat = Some col ->
      quarters !! i = Some q ->
      data !! (j * length quarters + i)%nat =
        Some (mkDataPoint q (gname g) (js_or (cell col i) (JNum 0))).
Proof.
  destruct (build_from_layout quarters groups (map gname groups) 0)
    as (data & Hd & Hlen & Hlook).
  - intros k c Hk. simpl. rewrite list_lookup_fmap_Some in Hk.
    destruct Hk as (g & -> & Hg).
    exists g. rewrite Forall_lookup in Hmeasure.
    specialize (Hmeasure _ _ Hg).
    destruct (gmeasures g) as [|col cols]; [done|]. by exists col.
  - exists data. split; [done|]. rewrite length_map in Hlen. split; [done|].
    intros j i g col q Hg Hcol Hq. apply (Hlook j i (gname g) g col q); try done.
    rewrite map_as_fmap, list_lookup_fmap, Hg. done.
Qed.

Lemma buildDataArray_layout_witness :
  Forall (fun g => gmeasures g <> []) layout_groups /\
  (exists data, buildDataArray layout_quarters (map gname layout_groups)
                  layout_groups = Some data /\
    length data = (length layout_groups * length layout_quarters)%nat /\
    forall (j i : nat) (g : group) (col : list jsval) (q : string),
      layout_groups !! j = Some g -> gmeasures g !! 0%nat = Some col ->
      layout_quarters !! i = Some q ->
      data !! (j * length layout_quarters + i)%nat =
        Some (mkDataPoint q (gname g) (js_or (cell col i) (JNum 0)))) /\
  buildDataArray layout_quarters (map gname layout_groups) layout_groups =
    Some [mkDataPoint "Q1" "A" (JNum 10); mkDataPoint "Q2" "A" (JNum 5);
          mkDataPoint "Q1" "B" (JNum 0); mkDataPoint "Q2" "B" (JNum 7)]%string.
Proof.
  assert (H : Forall (fun g => gmeasures g <> []) layout_groups)
    by (repeat constructor; simpl; discriminate).
  split; [exact H|]. split; [exact (buildDataArray_layout layout_quarters _ H)|].
  reflexivity.
Defined.

(** ** update: early returns and the coercion of cells *)

Lemma truthy_false_iff (v : jsval) :
  truthy v = false <->
  v = JNum 0 \/ v = JNaN \/ v = JStr "" \/ v = JBool false \/ v = JNull \/ v = JUndef.
Proof.
  split.
  - destruct v as [z| |s|b| | |t]; simpl; intros H.
    + apply negb_false_iff, Z.eqb_eq in H. subst. by left.
    + by right; left.
    + apply negb_false_iff, String.eqb_eq in H. subst. by right; right; left.
    + subst. by right; right; right; left.
    + by right; right; right; right; left.
    + by right; right; right; right; right.
    + discriminate.
  - intros H. repeat destruct H as [->|H]; try reflexivity. subst. reflexivity.
Qed.

(** C7 (counterexample): a non-empty string cell is truthy, so
    [(v as number) || 0] keeps it: the flat record holds the string and
    the running total becomes the string "0n/a". *)
Lemma string_cell_not_coerced :
  buildDataArray ["Q1"] ["A"] [mkGroup "A" [[JStr "n/a"]]]%string =
    Some [mkDataPoint "Q1" "A" (JStr "n/a")]%string /\
  computeRunningTotals [mkDataPoint "Q1" "A" (JStr "n/a")]%string =
    [mkProcessed "Q1" "A" (JStr "n/a") (JStr "0n/a")]%string.
Proof. split; reflexivity. Qed.

(** C7 (amended): [update] returns with the target emptied and nothing
    thrown when the first data view is missing, has no categorical data,
    has no or an empty category list, or has no or an empty value list.  A
    cell is read as [cell || 0]: the falsy cells ([null], [undefined],
    [NaN], 0, [false], "") become 0 and every other cell, a non-empty
    string or [true] included, is kept as it is: this holds at every cell
    [buildDataArray] reads, for any periods and value groups. *)
Theorem update_guards_and_coercion
    (localeCompare : string -> string -> comparison) :
  (forall options, head (dataViews options) = None \/
     head (dataViews options) = Some None ->
     update localeCompare options = Some []) /\
  (forall options dv, head (dataViews options) = Some (Some dv) ->
     categorical dv = None -> update localeCompare options = Some []) /\
  (forall options dv c, head (dataViews options) = Some (Some dv) ->
     categorical dv = Some c ->
     categories c = None \/ categories c = Some [] ->
     update localeCompare options = Some []) /\
  (forall options dv c, head (dataViews options) = Some (Some dv) ->
     categorical dv = Some c ->
     values c = None \/ (exists v, values c = Some v /\ vlength v = 0%nat) ->
     update localeCompare options = Some []) /\
  (forall (quarters : list string) (groups : list group) (data : list DataPoint),
     buildDataArray quarters (map gname groups) groups = Some data ->
     forall (j i : nat) (g : group) (col : list jsval) (q : string),
       groups !! j = Some g -> gmeasures g !! 0%nat = Some col ->
       quarters !! i = Some q ->
       data !! (j * length quarters + i)%nat =
         Some (mkDataPoint q (gname g)
                 (if truthy (cell col i) then cell col i else JNum 0))) /\
  (forall v : jsval, truthy v = false <->
     v = JNum 0 \/ v = JNaN \/ v = JStr "" \/ v = JBool false \/
     v = JNull \/ v = JUndef).
Proof.
  split; [|split; [|split; [|split; [|split]]]].
  - intros options [H|H]; unfold update; by rewrite H.
  - intros options dv H Hc. unfold update. by rewrite H, Hc.
  - intros options dv c H Hc [Hk|Hk]; unfold update; rewrite H, Hc, Hk; done.
  - intros options dv c H Hc [Hv|(v & Hv & Hl)]; unfold update; rewrite H, Hc, Hv.
    + by destruct (categories c) as [[|]|].
    + destruct (categories c) as [[|]|]; try done. by rewrite Hl.
  - intros quarters groups data Hb j i g col q Hg Hcol Hq.
    apply (build_from_some_lookup quarters groups (map gname groups) 0 data Hb j i
             (gname g) g col q); try done.
    by rewrite map_as_fmap, list_lookup_fmap, Hg.
  - apply truthy_false_iff.
Qed.

(** ** The vertical domain *)

Lemma stack_total_fold (d : StackedDataPoint) (cats : list string) (s : Z) :
  (forall c, In c cats -> exists z, obj_get d c = JNum z) ->
  fold_left (fun total c => js_add total (js_or (obj_get d c) (JNum 0))) cats (JNum s) =
  JNum (s + fold_right Z.add 0 (map (field_number d) cats)).
Proof.
  revert s. induction cats as [|c cats IH]; intros s Hnum; cbn [fold_left fold_right map].
  - by rewrite Z.add_0_r.
  - destruct (Hnum c (or_introl eq_refl)) as [z Hz].
    assert (Hf : field_number d c = z) by (unfold field_number; by rewrite Hz).
    assert (Hor : js_or (obj_get d c) (JNum 0) = JNum z).
    { rewrite Hz. unfold js_or. simpl. destruct (Z.eqb_spec z 0); simpl; congruence. }
    rewrite Hor, Hf. unfold js_add at 2. simpl.
    rewrite IH by (intros c' Hc'; apply Hnum; by right).
    f_equal. lia.
Qed.

Lemma stack_total_numeric (d : StackedDataPoint) (cats : list string) :
  (forall c, In c cats -> exists z, obj_get d c = JNum z) ->
  stack_total cats d = JNum (stacked_sum cats d).
Proof. intros H. unfold stack_total. by rewrite stack_total_fold. Qed.

Lemma d3_max_from_numbers (m : Z) (xs : list Z) :
  d3_max_from (Some m) (map JNum xs) = Some (Some (fold_left Z.max xs m)).
Proof.
  revert m. induction xs as [|x xs IH]; intros m; simpl; [done|].
  rewrite <- IH. f_equal. destruct (Z.ltb_spec m x); f_equal; lia.
Qed.

(** C8: when every category field of every stacked record is a number,
    the y domain is [0, maxStackedTotal], maxStackedTotal being the
    largest per-record sum of the category fields (0 without records);
    with no records, or a maximum of 0, the domain is [0, 0]. *)
Theorem y_domain_max_stacked (stackedData : list StackedDataPoint)
    (seriesCategories : list string)
    (Hnum : forall d c, In d stackedData -> In c seriesCategories ->
       exists z, obj_get d c = JNum z) :
  y_domain stackedData seriesCategories =
    Some (0, spec_maxStackedTotal stackedData seriesCategories) /\
  (stackedData = [] \/ spec_maxStackedTotal stackedData seriesCategories = 0 ->
   y_domain stackedData seriesCategories = Some (0, 0)).
Proof.
  assert (Hmap : map (stack_total seriesCategories) stackedData =
                 map JNum (map (stacked_sum seriesCategories) stackedData)).
  { rewrite map_map. apply map_ext_in. intros d Hd.
    apply stack_total_numeric. intros c Hc. by apply Hnum. }
  assert (Hy : y_domain stackedData seriesCategories =
               Some (0, spec_maxStackedTotal stackedData seriesCategories)).
  { unfold y_domain, maxY, d3_max, spec_maxStackedTotal. rewrite Hmap.
    destruct (map (stacked_sum seriesCategories) stackedData) as [|x xs]; simpl; [done|].
    rewrite d3_max_from_numbers. simpl.
    destruct (Z.eqb_spec (fold_left Z.max xs x) 0) as [->|]; done. }
  split; [exact Hy|]. rewrite Hy. intros [H|H]; [by subst|by rewrite H].
Qed.

Lemma y_domain_max_stacked_witness :
  (forall d c, In d two_period_records -> In c ["A"; "B"]%string ->
     exists z, obj_get d c = JNum z) /\
  (y_domain two_period_records ["A"; "B"]%string =
     Some (0, spec_maxStackedTotal two_period_records ["A"; "B"]%string) /\
   (two_period_records = [] \/
      spec_maxStackedTotal two_period_records ["A"; "B"]%string = 0 ->
    y_domain two_period_records ["A"; "B"]%string = Some (0, 0))) /\
  spec_maxStackedTotal two_period_records ["A"; "B"]%string = 25.
Proof.
  assert (H : forall d c, In d two_period_records -> In c ["A"; "B"]%string ->
     exists z, obj_get d c = JNum z).
  { intros d c [<-|[<-|[]]] [<-|[<-|[]]]; eexists; reflexivity. }
  split; [exact H|]. split; [exact (y_domain_max_stacked _ _ H)|].
  reflexivity.
Defined.

(** ** Running totals for category names not inherited from [Object.prototype] *)

Lemma ordinary_not_proto (k : string) : ordinary_key k -> k <> "__proto__"%string.
Proof. unfold ordinary_key. intros H ->. discriminate. Qed.

Lemma crt_fold_ordinary (k : string) (Hk : ordinary_key k) (data : list DataPoint) :
  forall (rt : obj) (acc : list ProcessedDataPoint) (s : Z),
  (obj_get rt k = JNum s \/ (obj_get rt k = JUndef /\ s = 0)) ->
  (forall d, In d data -> category d = k -> exists v, value d = JNum v) ->
  totals_of k (snd (fold_left crt_step data (rt, acc))) =
  totals_of k acc ++ map JNum (prefix_sums s (values_of k data)).
Proof.
  pose proof (ordinary_not_proto k Hk) as Hp.
  induction data as [|d data IH]; intros rt acc s Hrt Hnum; simpl.
  { by rewrite app_nil_r. }
  unfold values_of. simpl. destruct (String.eqb_spec (category d) k) as [Hc|Hc].
  - destruct (Hnum d (or_introl eq_refl) Hc) as [v Hv].
    set (rt1 := if negb (truthy (obj_get rt (category d)))
                then obj_set rt (category d) (JNum 0) else rt).
    assert (H1 : obj_get rt1 k = JNum s).
    { subst rt1. rewrite Hc. destruct Hrt as [Hs|[Hu ->]].
      - rewrite Hs. simpl. destruct (Z.eqb_spec s 0) as [->|]; simpl; [|done].
        by apply obj_get_set_eq.
      - rewrite Hu. simpl. by apply obj_get_set_eq. }
    rewrite IH with (s := s + v).
    + unfold totals_of. rewrite List.filter_app, map_app. simpl.
      rewrite Hc, String.eqb_refl. simpl.
      rewrite ?Hc, obj_get_set_eq by done. rewrite H1, Hv. simpl.
      rewrite <- app_assoc. done.
    + left. rewrite ?Hc, obj_get_set_eq by done. rewrite H1, Hv. done.
    + intros d' Hd'. apply Hnum. by right.
  - assert (Hne : k <> category d) by auto.
    rewrite IH with (s := s).
    + unfold totals_of. rewrite List.filter_app, map_app. simpl.
      apply String.eqb_neq in Hc. rewrite Hc. simpl. rewrite app_nil_r. done.
    + rewrite obj_get_set_ne by done.
      destruct (negb (truthy (obj_get rt (category d)))); [|done].
      by rewrite obj_get_set_ne.
    + intros d' Hd'. apply Hnum. by right.
Qed.

(** For a category name not inherited from [Object.prototype] whose values
    are numbers, the running totals emitted for it are the prefix sums of
    its values, in input order. *)
Lemma running_totals_ordinary (k : string) (data : list DataPoint)
    (Hk : ordinary_key k)
    (Hnum : forall d, In d data -> category d = k -> exists v, value d = JNum v) :
  totals_of k (computeRunningTotals data) = map JNum (prefix_sums 0 (values_of k data)).
Proof.
  unfold computeRunningTotals.
  assert (H0 : obj_get [] k = JUndef) by exact Hk.
  exact (crt_fold_ordinary k Hk data [] [] 0 (or_intror (conj H0 eq_refl)) Hnum).
Qed.

Lemma prefix_sums_last (s : Z) (l : list Z) :
  l <> [] -> last (prefix_sums s l) = Some (s + fold_right Z.add 0 l).
Proof.
  revert s. induction l as [|x l IH]; intros s Hl; [done|].
  destruct l as [|y l'].
  - simpl. f_equal. lia.
  - change (last ((s + x) :: prefix_sums (s + x) (y :: l')) =
            Some (s + fold_right Z.add 0 (x :: y :: l'))).
    rewrite last_cons, IH by done. simpl. f_equal. lia.
Qed.

Lemma prefix_sums_mono (s : Z) (l : list Z) :
  Forall (fun x => 0 <= x) l ->
  forall (i : nat) (a b : Z), prefix_sums s l !! i = Some a ->
    prefix_sums s l !! S i = Some b -> a <= b.
Proof.
  revert s. induction l as [|x l IH]; intros s Hl i a b Ha Hb; [done|].
  inversion Hl as [|? ? Hx Hl']; subst.
  destruct i as [|i]; simpl in Ha, Hb.
  - injection Ha as <-. destruct l as [|y l]; [done|].
    simpl in Hb. injection Hb as <-. inversion Hl'. lia.
  - exact (IH (s + x) Hl' i a b Ha Hb).
Qed.

(** ** The pivot at a key, and the order of running totals *)




(** ** C9 *)



(** ** sortQuarters: order of the result *)

Section SortOrder.
Variable localeCompare : string -> string -> comparison.

(** [b] may follow [a]: [b] does not sort before [a]. *)
Definition may_follow (a b : string) : Prop := localeCompare b a <> Lt.

Lemma insert_sorted_last (x : string) (acc : list string) :
  Forall (fun y => localeCompare x y <> Lt) acc ->
  insert_sorted localeCompare x acc = acc ++ [x].
Proof.
  induction acc as [|y acc IH]; intros Hall; simpl; [done|].
  inversion Hall as [|? ? Hy Hrest]; subst.
  destruct (localeCompare x y) eqn:E; [|done|]; by rewrite IH.
Qed.

Lemma sort_fold_sorted_prefix (l acc : list string) :
  (forall x y, In x l -> In y acc -> localeCompare x y <> Lt) ->
  StronglySorted may_follow l ->
  fold_left (fun acc x => insert_sorted localeCompare x acc) l acc = acc ++ l.
Proof.
  revert acc. induction l as [|x l IH]; intros acc Hxy Hs; simpl.
  - by rewrite app_nil_r.
  - apply StronglySorted_inv in Hs as [Hs Hx].
    rewrite insert_sorted_last.
    2:{ apply List.Forall_forall. intros y Hy. apply Hxy; [by left|done]. }
    rewrite IH; [by rewrite <- app_assoc| |done].
    intros x' y Hx' Hy. apply in_app_or in Hy as [Hy|[<-|[]]].
    + apply Hxy; [by right|done].
    + rewrite List.Forall_forall in Hx. exact (Hx x' Hx').
Qed.

Hypothesis lt_asym : forall a b, localeCompare a b = Lt -> localeCompare b a <> Lt.
Hypothesis lt_trans : forall a b c,
  localeCompare a b = Lt -> localeCompare b c = Lt -> localeCompare a c = Lt.

Lemma insert_sorted_sorted (x : string) (l : list string) :
  StronglySorted may_follow l -> StronglySorted may_follow (insert_sorted localeCompare x l).
Proof.
  induction l as [|y l IH]; intros Hs; simpl.
  - repeat constructor.
  - apply StronglySorted_inv in Hs as [Hs Hy].
    assert (Hrest : localeCompare x y <> Lt ->
              StronglySorted may_follow (y :: insert_sorted localeCompare x l)).
    { intros E. apply SSorted_cons; [by apply IH|].
      apply List.Forall_forall. intros z Hz.
      apply (Permutation_in _ (insert_sorted_perm localeCompare x l)) in Hz.
      destruct Hz as [<-|Hz]; [exact E|].
      rewrite List.Forall_forall in Hy. by apply Hy. }
    destruct (localeCompare x y) eqn:E; [by apply Hrest| |by apply Hrest].
    apply SSorted_cons; [by apply SSorted_cons|].
    constructor; [by apply lt_asym|].
    eapply Forall_impl; [exact Hy|]. unfold may_follow. intros z Hz Hzx.
    apply Hz. eapply lt_trans; eauto.
Qed.

Lemma sort_fold_sorted (l acc : list string) :
  StronglySorted may_follow acc ->
  StronglySorted may_follow (fold_left (fun acc x => insert_sorted localeCompare x acc) l acc).
Proof.
  revert acc. induction l as [|x l IH]; intros acc Hs; simpl; [done|].
  apply IH. by apply insert_sorted_sorted.
Qed.

End SortOrder.

(** X1: for a comparator whose "sorts before" is asymmetric and
    transitive, [sortQuarters] leaves no label before one that sorts
    before it, and it keeps the same labels. *)
Theorem sortQuarters_sorted (localeCompare : string -> string -> comparison)
    (Hasym : forall a b, localeCompare a b = Lt -> localeCompare b a <> Lt)
    (Htrans : forall a b c,
       localeCompare a b = Lt -> localeCompare b c = Lt -> localeCompare a c = Lt)
    (l : list string) :
  StronglySorted (may_follow localeCompare) (sort_strings localeCompare l) /\
  sort_strings localeCompare l ≡ₚ l.
Proof.
  split; [|apply sort_strings_perm].
  unfold sort_strings. apply sort_fold_sorted; [done..|constructor].
Qed.

Lemma sortQuarters_sorted_witness :
  (forall a b, length_compare a b = Lt -> length_compare b a <> Lt) /\
  (forall a b c, length_compare a b = Lt -> length_compare b c = Lt ->
     length_compare a c = Lt) /\
  StronglySorted (may_follow length_compare)
    (sort_strings length_compare ["ccc"; "a"; "bb"]%string) /\
  sort_strings length_compare ["ccc"; "a"; "bb"]%string ≡ₚ ["ccc"; "a"; "bb"]%string.
Proof.
  assert (Hasym : forall a b, length_compare a b = Lt -> length_compare b a <> Lt).
  { unfold length_compare. intros a b H1 H2.
    apply Nat.compare_lt_iff in H1, H2. lia. }
  assert (Htrans : forall a b c, length_compare a b = Lt -> length_compare b c = Lt ->
     length_compare a c = Lt).
  { unfold length_compare. intros a b c H1 H2.
    apply Nat.compare_lt_iff in H1, H2. apply Nat.compare_lt_iff. lia. }
  split; [exact Hasym|]. split; [exact Htrans|].
  exact (sortQuarters_sorted length_compare Hasym Htrans _).
Defined.

(** X2: sorting a list that is already in order returns it unchanged,
    equal labels included. *)
Theorem sortQuarters_sorted_unchanged (localeCompare : string -> string -> comparison)
    (l : list string) (Hs : StronglySorted (may_follow localeCompare) l) :
  sort_strings localeCompare l = l.
Proof.
  unfold sort_strings. rewrite sort_fold_sorted_prefix; [done| |done].
  intros x y _ [].
Qed.

Lemma sortQuarters_sorted_unchanged_witness :
  StronglySorted (may_follow String.compare) ["2023Q1"; "2023Q1"; "2023Q2"]%string /\
  sort_strings String.compare ["2023Q1"; "2023Q1"; "2023Q2"]%string =
    ["2023Q1"; "2023Q1"; "2023Q2"]%string.
Proof.
  assert (H : StronglySorted (may_follow String.compare)
                ["2023Q1"; "2023Q1"; "2023Q2"]%string).
  { repeat constructor; unfold may_follow; vm_compute; discriminate. }
  split; [exact H|]. exact (sortQuarters_sorted_unchanged String.compare _ H).
Defined.

(** X3: for a category whose name is not inherited from [Object.prototype]
    and whose values are numbers, the running totals emitted for it are
    the prefix sums of its values in input order, whatever records of
    other categories come in between; the last one is the sum of its
    values, and they never decrease when the values are non-negative. *)
Theorem running_totals_per_category (k : string) (data : list DataPoint)
    (Hk : ordinary_key k)
    (Hnum : forall d, In d data -> category d = k -> exists v, value d = JNum v) :
  totals_of k (computeRunningTotals data) = map JNum (prefix_sums 0 (values_of k data)) /\
  (values_of k data <> [] ->
     last (totals_of k (computeRunningTotals data)) =
     Some (JNum (fold_right Z.add 0 (values_of k data)))) /\
  (Forall (fun v => 0 <= v) (values_of k data) ->
     forall (i : nat) (a b : Z),
       totals_of k (computeRunningTotals data) !! i = Some (JNum a) ->
       totals_of k (computeRunningTotals data) !! S i = Some (JNum b) -> a <= b).
Proof.
  pose proof (running_totals_ordinary k data Hk Hnum) as Ht.
  split; [exact Ht|]. rewrite Ht. split.
  - intros Hne. rewrite map_as_fmap, fmap_last, prefix_sums_last by done. done.
  - intros Hpos i a b Ha Hb.
    rewrite map_as_fmap, list_lookup_fmap in Ha, Hb.
    destruct (prefix_sums 0 (values_of k data) !! i) as [a'|] eqn:Ea; [|done].
    destruct (prefix_sums 0 (values_of k data) !! S i) as [b'|] eqn:Eb; [|done].
    simpl in Ha, Hb. injection Ha as <-. injection Hb as <-.
    exact (prefix_sums_mono 0 _ Hpos i a' b' Ea Eb).
Qed.

Lemma running_totals_per_category_witness :
  ordinary_key "A" /\
  (forall d, In d [mkDataPoint "Q1" "A" (JNum 2); mkDataPoint "Q1" "B" (JNum 7);
                   mkDataPoint "Q2" "A" (JNum 3)]%string ->
     category d = "A"%string -> exists v, value d = JNum v) /\
  totals_of "A" (computeRunningTotals
     [mkDataPoint "Q1" "A" (JNum 2); mkDataPoint "Q1" "B" (JNum 7);
      mkDataPoint "Q2" "A" (JNum 3)]%string) =
    map JNum (prefix_sums 0 (values_of "A"
     [mkDataPoint "Q1" "A" (JNum 2); mkDataPoint "Q1" "B" (JNum 7);
      mkDataPoint "Q2" "A" (JNum 3)]%string)).
Proof.
  assert (Hk : ordinary_key "A") by reflexivity.
  assert (Hnum : forall d, In d [mkDataPoint "Q1" "A" (JNum 2); mkDataPoint "Q1" "B" (JNum 7);
                   mkDataPoint "Q2" "A" (JNum 3)]%string ->
     category d = "A"%string -> exists v, value d = JNum v).
  { intros d Hd _. simpl in Hd.
    destruct Hd as [<-|[<-|[<-|[]]]]; eexists; reflexivity. }
  split; [exact Hk|]. split; [exact Hnum|].
  exact (proj1 (running_totals_per_category "A" _ Hk Hnum)).
Defined.

(** ** buildDataArray: when it throws *)

Lemma sort_strings_nil_iff (localeCompare : string -> string -> comparison)
    (l : list string) :
  sort_strings localeCompare l = [] <-> l = [].
Proof.
  split; intros H.
  - apply length_zero_iff_nil. rewrite <- (Permutation_length (sort_strings_perm localeCompare l)), H. done.
  - apply length_zero_iff_nil. rewrite (Permutation_length (sort_strings_perm localeCompare l)), H. done.
Qed.

(** X4: over the groups' own names, [buildDataArray] throws exactly when
    there is a period and some group has no measure column (the first
    period of that group reads [values] of [undefined]); otherwise it
    returns records. *)
Theorem buildDataArray_throws_iff (quarters : list string) (groups : list group) :
  buildDataArray quarters (map gname groups) groups = None <->
  quarters <> [] /\ exists g, In g groups /\ gmeasures g = [].
Proof.
  unfold buildDataArray. rewrite build_from_none. simpl. split.
  - intros (k & c & Hk & Hg).
    rewrite map_as_fmap, list_lookup_fmap in Hk.
    destruct (groups !! k) as [g|] eqn:E; [|done].
    destruct Hg as [Hm Hq]. split; [done|].
    exists g. split; [|done]. apply list_elem_of_In. by eapply list_elem_of_lookup_2.
  - intros (Hq & g & Hin & Hm). apply list_elem_of_In, list_elem_of_lookup in Hin as [k Hk].
    exists k, (gname g). rewrite map_as_fmap, list_lookup_fmap, Hk. split; [done|].
    split; [exact Hm|exact Hq].
Qed.

(** ** update: when it throws, and what it draws *)

(** X5: with string labels in the first category column (the model's
    labels; [localeCompare] is then a method of each label), [update]
    throws exactly when it gets past its early returns (a first data view
    with categorical data, a non-empty category list and a non-empty value
    list), the first category column has a label, and some value group has
    no measure column. *)
Theorem update_throws_iff (localeCompare : string -> string -> comparison)
    (options : VisualUpdateOptions) :
  update localeCompare options = None <->
  exists dv c cc rest v,
    head (dataViews options) = Some (Some dv) /\ categorical dv = Some c /\
    categories c = Some (cc :: rest) /\ values c = Some v /\ vlength v <> 0%nat /\
    cat_values cc <> [] /\
    exists g, In g (grouped v) /\ gmeasures g = [].
Proof.
  unfold update. split.
  - intros Hu.
    destruct (head (dataViews options)) as [[dv|]|] eqn:Hh; try discriminate.
    destruct (categorical dv) as [c|] eqn:Hc; try discriminate.
    destruct (categories c) as [[|cc rest]|] eqn:Hk;
      destruct (values c) as [v|] eqn:Hv; try discriminate.
    destruct (Nat.eqb_spec (vlength v) 0); [discriminate|].
    destruct (buildDataArray _ _ _) eqn:Hb; [discriminate|].
    apply buildDataArray_throws_iff in Hb as [Hq Hg].
    exists dv, c, cc, rest, v. repeat split; try assumption.
    intros He. apply Hq, sort_strings_nil_iff, He.
  - intros (dv & c & cc & rest & v & Hh & Hc & Hk & Hv & Hl & Hq & Hg).
    rewrite Hh, Hc, Hk, Hv.
    destruct (Nat.eqb_spec (vlength v) 0); [done|].
    assert (Hq' : sort_strings localeCompare (cat_values cc) <> []).
    { intros He. apply Hq, (sort_strings_nil_iff localeCompare), He. }
    pose proof (proj2 (buildDataArray_throws_iff (sort_strings localeCompare (cat_values cc)) (grouped v)) (conj Hq' Hg)) as Hb.
    by rewrite Hb.
Qed.

(** X6: when [update] gets past its early returns and every value group
    has a measure column, it draws exactly one chart, sized to the
    viewport: its x domain is the first category column sorted (the same
    labels reordered), its categories are the group names in group order,
    and it has one stacked record per label. *)
Theorem update_draws_one_chart (localeCompare : string -> string -> comparison)
    (options : VisualUpdateOptions) (dv : DataView) (c : Categorical)
    (cc : CategoryColumn) (rest : list CategoryColumn) (v : ValueColumns)
    (Hh : head (dataViews options) = Some (Some dv))
    (Hc : categorical dv = Some c) (Hk : categories c = Some (cc :: rest))
    (Hv : values c = Some v) (Hl : vlength v <> 0%nat)
    (Hm : Forall (fun g => gmeasures g <> []) (grouped v)) :
  exists ch, update localeCompare options =
      Some [Svg (vp_width options) (vp_height options) ch] /\
    ch_quarters ch = sort_strings localeCompare (cat_values cc) /\
    ch_quarters ch ≡ₚ cat_values cc /\
    ch_categories ch = map gname (grouped v) /\
    length (ch_stacked ch) = length (cat_values cc).
Proof.
  destruct (buildDataArray_layout (sort_strings localeCompare (cat_values cc))
              (grouped v) Hm) as (data & Hd & _).
  unfold update. rewrite Hh, Hc, Hk, Hv.
  destruct (Nat.eqb_spec (vlength v) 0); [done|]. rewrite Hd.
  eexists. split; [reflexivity|]. simpl.
  split; [done|]. split; [apply sort_strings_perm|]. split; [done|].
  unfold transformToStackedData. rewrite length_map.
  apply Permutation_length, sort_strings_perm.
Qed.

Lemma update_draws_one_chart_witness :
  exists ch, update String.compare
      (mkOptions [Some (mkDataView (Some (mkCategorical
         (Some [mkCategoryColumn ["2023Q2"; "2023Q1"]%string])
         (Some (mkValueColumns 1 basic_groups)))))] 300 200) =
      Some [Svg 300 200 ch] /\
    ch_quarters ch = sort_strings String.compare ["2023Q2"; "2023Q1"]%string /\
    ch_quarters ch ≡ₚ ["2023Q2"; "2023Q1"]%string /\
    ch_categories ch = map gname basic_groups /\
    length (ch_stacked ch) = length ["2023Q2"; "2023Q1"]%string.
Proof.
  apply (update_draws_one_chart String.compare
           (mkOptions [Some (mkDataView (Some (mkCategorical
              (Some [mkCategoryColumn ["2023Q2"; "2023Q1"]%string])
              (Some (mkValueColumns 1 basic_groups)))))] 300 200)
           (mkDataView (Some (mkCategorical
              (Some [mkCategoryColumn ["2023Q2"; "2023Q1"]%string])
              (Some (mkValueColumns 1 basic_groups)))))
           (mkCategorical
              (Some [mkCategoryColumn ["2023Q2"; "2023Q1"]%string])
              (Some (mkValueColumns 1 basic_groups)))
           (mkCategoryColumn ["2023Q2"; "2023Q1"]%string) []
           (mkValueColumns 1 basic_groups)); try reflexivity.
  - discriminate.
  - repeat constructor; simpl; discriminate.
Defined.

(** ** The pivot: the [quarter] field *)

(** X7: the [quarter] field of the record built for period [q] is the
    label [q] when no category is named "quarter"; when one is, the
    category's value overwrites it. *)
Theorem stack_record_quarter_field (processedData : list ProcessedDataPoint)
    (seriesCategories : list string) (q : string) :
  ("quarter"%string ∉ seriesCategories ->
     obj_get (stack_record processedData seriesCategories q) "quarter" = JStr q) /\
  ("quarter"%string ∈ seriesCategories ->
     obj_get (stack_record processedData seriesCategories q) "quarter" =
     stack_field processedData q "quarter").
Proof.
  split; intros H.
  - unfold stack_record. rewrite stack_fold_absent by done. reflexivity.
  - by apply stack_record_field.
Qed.

(** ** d3.stack and the drawn series *)

Lemma stacked_sum_app (l1 l2 : list string) (d : StackedDataPoint) :
  stacked_sum (l1 ++ l2) d = stacked_sum l1 d + stacked_sum l2 d.
Proof.
  unfold stacked_sum. induction l1 as [|k l1 IH]; simpl; [done|]. rewrite IH. lia.
Qed.

Lemma mapM_Some_map {A B} (f : A -> option B) (g : A -> B) (l : list A) :
  Forall (fun x => f x = Some (g x)) l -> mapM f l = Some (map g l).
Proof. induction 1 as [|x l Hx _ IH]; simpl; [done|]. by rewrite Hx, IH. Qed.

Lemma stack_layer_numeric (data : list StackedDataPoint) (k : string) :
  (forall d, In d data -> exists z, obj_get d k = JNum z) ->
  stack_layer data k = Some (cum_layer data [] k).
Proof.
  intros Hnum. unfold stack_layer, cum_layer. apply mapM_Some_map.
  apply List.Forall_forall. intros d Hd. destruct (Hnum d Hd) as [z Hz].
  rewrite Hz. simpl. unfold stacked_sum, field_number. simpl. rewrite Hz.
  do 3 f_equal. lia.
Qed.

Lemma offset_cum (data : list StackedDataPoint) (pre : list string) (k k' : string) :
  zip_with offset_point (cum_layer data pre k) (cum_layer data [] k') =
  cum_layer data (pre ++ [k]) k'.
Proof.
  unfold cum_layer. induction data as [|d data IH]; [done|].
  cbn [map zip_with]. f_equal; [|exact IH].
  unfold offset_point. cbn [sp_top sp_base sp_data num_add].
  rewrite !stacked_sum_app. change (stacked_sum [] d) with 0.
  f_equal. f_equal. lia.
Qed.

Lemma offset_from_cum (data : list StackedDataPoint) (pre : list string) (k : string)
    (ks : list string) :
  offset_from (cum_layer data pre k) (map (cum_layer data []) ks) =
  stack_rest data (pre ++ [k]) ks.
Proof.
  revert pre k. induction ks as [|k' ks IH]; intros pre k; simpl; [done|].
  rewrite offset_cum. f_equal. apply IH.
Qed.

Lemma d3_stack_numeric_eq (keys : list string) (data : list StackedDataPoint) :
  (forall d k, In d data -> In k keys -> exists z, obj_get d k = JNum z) ->
  d3_stack keys data = Some (stack_rest data [] keys).
Proof.
  intros Hnum. unfold d3_stack.
  rewrite (mapM_Some_map _ (cum_layer data [])).
  - simpl. destruct keys as [|k ks]; simpl; [done|]. by rewrite offset_from_cum.
  - apply List.Forall_forall. intros k Hk. apply stack_layer_numeric.
    intros d Hd. by apply Hnum.
Qed.

Lemma length_stack_rest (data : list StackedDataPoint) (pre ks : list string) :
  length (stack_rest data pre ks) = length ks.
Proof. revert pre. induction ks as [|k ks IH]; intros pre; simpl; [done|]. by rewrite IH. Qed.

Lemma stack_rest_lookup (data : list StackedDataPoint) (pre ks : list string)
    (i : nat) (k : string) :
  ks !! i = Some k ->
  stack_rest data pre ks !! i = Some (cum_layer data (pre ++ take i ks) k).
Proof.
  revert pre i. induction ks as [|k0 ks IH]; intros pre i Hi; [done|].
  destruct i as [|i]; simpl in *.
  - injection Hi as ->. by rewrite app_nil_r.
  - rewrite (IH _ _ Hi). by rewrite <- app_assoc.
Qed.

(** X8: when every field read by [d3.stack] is a number, it returns one
    series per key and one point per record: the point of key [i] for a
    record spans from the sum of the record's fields for the keys before
    [i] to that sum plus the field of key [i]. *)
Theorem d3_stack_numeric (keys : list string) (data : list StackedDataPoint)
    (Hnum : forall d k, In d data -> In k keys -> exists z, obj_get d k = JNum z) :
  exists layers, d3_stack keys data = Some layers /\
    length layers = length keys /\
    forall i k s, keys !! i = Some k -> layers !! i = Some s ->
      length s = length data /\
      forall j d, data !! j = Some d ->
        s !! j = Some (mkPoint (Some (stacked_sum (take i keys) d))
                               (Some (stacked_sum (take (S i) keys) d)) d).
Proof.
  exists (stack_rest data [] keys). split; [by apply d3_stack_numeric_eq|].
  split; [apply length_stack_rest|].
  intros i k s Hk Hs. rewrite (stack_rest_lookup _ _ _ _ _ Hk) in Hs.
  injection Hs as <-. simpl. unfold cum_layer. split; [by rewrite length_map|].
  intros j d Hd. rewrite map_as_fmap, list_lookup_fmap, Hd. simpl.
  by rewrite (take_S_r _ _ _ Hk).
Qed.

Lemma d3_stack_numeric_witness :
  (forall d k, In d [[("quarter", JStr "Q1"); ("A", JNum 10); ("B", JNum 3)]]%string ->
     In k ["A"; "B"]%string -> exists z, obj_get d k = JNum z) /\
  exists layers, d3_stack ["A"; "B"]%string
      [[("quarter", JStr "Q1"); ("A", JNum 10); ("B", JNum 3)]]%string = Some layers /\
    length layers = length ["A"; "B"]%string /\
    forall i k s, ["A"; "B"]%string !! i = Some k -> layers !! i = Some s ->
      length s = length [[("quarter", JStr "Q1"); ("A", JNum 10); ("B", JNum 3)]]%string /\
      forall j d, [[("quarter", JStr "Q1"); ("A", JNum 10); ("B", JNum 3)]]%string !! j = Some d ->
        s !! j = Some (mkPoint (Some (stacked_sum (take i ["A"; "B"]%string) d))
                               (Some (stacked_sum (take (S i) ["A"; "B"]%string) d)) d).
Proof.
  assert (H : forall d k, In d [[("quarter", JStr "Q1"); ("A", JNum 10); ("B", JNum 3)]]%string ->
     In k ["A"; "B"]%string -> exists z, obj_get d k = JNum z).
  { intros d k Hd Hk. destruct Hd as [<-|[]].
    destruct Hk as [<-|[<-|[]]]; [exists 10|exists 3]; reflexivity. }
  split; [exact H|]. exact (d3_stack_numeric _ _ H).
Defined.

Lemma stack_layer_raw (data : list StackedDataPoint) (k : string) (s : list StackPoint) :
  stack_layer data k = Some s -> Forall2 (raw_point k) s data.
Proof.
  unfold stack_layer. intros H. apply mapM_Some_1 in H.
  induction H as [|d p data s Hp _ IH]; constructor; [|exact IH].
  destruct (js_unary_plus (obj_get d k)) as [n|] eqn:Hn; simpl in Hp; [|done].
  injection Hp as <-. unfold raw_point. simpl. auto.
Qed.

Lemma raw_point_ok (k : string) (p : StackPoint) (d : StackedDataPoint) :
  raw_point k p d -> offset_point_ok k p d.
Proof.
  intros (Hd & Hb & Hv). split; [done|]. exists 0, (sp_top p). split_and!; [done|done|].
  destruct (sp_top p); simpl; [f_equal; lia|done].
Qed.

Lemma offset_point_ok_step (k k' : string) (prev cur : list StackPoint)
    (data : list StackedDataPoint) :
  Forall2 (offset_point_ok k) prev data -> Forall2 (raw_point k') cur data ->
  Forall2 (offset_point_ok k') (zip_with offset_point prev cur) data.
Proof.
  intros Hp. revert cur. induction Hp as [|p d prev data Hpd _ IH]; intros cur Hc.
  - inversion Hc. constructor.
  - inversion Hc as [|c d' cur' data' Hcd Hrest]; subst. simpl. constructor; [|by apply IH].
    destruct Hpd as (Hpd & b & v & Hb & Hv & Ht). destruct Hcd as (Hcd & _ & Hcv).
    split; [done|]. unfold offset_point. simpl.
    destruct (sp_top p) as [t|] eqn:Htp.
    + exists t, (sp_top c). by split_and!.
    + exists b, (sp_top c). rewrite Hb. by split_and!.
Qed.

Lemma offset_from_ok (k : string) (prev : list StackPoint) (data : list StackedDataPoint)
    (ks : list string) (rest : list (list StackPoint)) :
  Forall2 (offset_point_ok k) prev data ->
  Forall2 (fun k' s => Forall2 (raw_point k') s data) ks rest ->
  Forall2 (fun k' s => Forall2 (offset_point_ok k') s data) ks (offset_from prev rest).
Proof.
  intros Hp Hr. revert k prev Hp. induction Hr as [|k' s ks rest Hs _ IH]; intros k prev Hp.
  - constructor.
  - simpl. pose proof (offset_point_ok_step _ _ _ _ _ Hp Hs) as Hs'.
    constructor; [exact Hs'|]. exact (IH _ _ Hs').
Qed.

Lemma d3_stack_ok (keys : list string) (data : list StackedDataPoint)
    (layers : list (list StackPoint)) :
  d3_stack keys data = Some layers ->
  Forall2 (fun k s => Forall2 (offset_point_ok k) s data) keys layers.
Proof.
  unfold d3_stack. destruct (mapM (stack_layer data) keys) as [series|] eqn:Hm; [|done].
  simpl. intros H. injection H as <-. apply mapM_Some_1 in Hm.
  assert (Hr : Forall2 (fun k s => Forall2 (raw_point k) s data) keys series).
  { eapply Forall2_impl; [exact Hm|]. intros k s. apply stack_layer_raw. }
  destruct Hr as [|k s ks rest Hs Hrest]; simpl; [constructor|].
  assert (Hs' : Forall2 (offset_point_ok k) s data).
  { eapply Forall2_impl; [exact Hs|]. intros p d. apply raw_point_ok. }
  constructor; [exact Hs'|]. exact (offset_from_ok _ _ _ _ _ Hs' Hrest).
Qed.

Lemma draw_chart_series (ch : Chart) (series : list Series) :
  draw_chart ch = Some series ->
  exists layers, d3_stack (ch_categories ch) (ch_stacked ch) = Some layers /\
    series = render (ch_quarters ch) layers.
Proof.
  unfold draw_chart. destruct (d3_stack _ _) as [layers|]; simpl; [|done].
  intros H. injection H as <-. eauto.
Qed.

Lemma render_lookup (quarters : list string) (layers : list (list StackPoint))
    (i : nat) (sr : Series) :
  render quarters layers !! i = Some sr ->
  exists s, layers !! i = Some s /\
    sr = mkSeries (nth (i mod 10) schemeCategory10 EmptyString)
                  (map (render_bar (band_domain quarters)) s).
Proof.
  unfold render. rewrite list_lookup_imap.
  destruct (layers !! i) as [s|]; simpl; [|done]. intros H. injection H as <-. eauto.
Qed.

Lemma stacked_sum_nonneg (l : list string) (d : StackedDataPoint) :
  (forall k, In k l -> 0 <= field_number d k) -> 0 <= stacked_sum l d.
Proof.
  unfold stacked_sum. induction l as [|k l IH]; intros H; simpl; [lia|].
  pose proof (H k (or_introl eq_refl)). enough (0 <= fold_right Z.add 0 (map (field_number d) l)) by lia.
  apply IH. intros k' Hk'. apply H. by right.
Qed.

Lemma in_take_in {A} (n : nat) (l : list A) (k : A) : In k (take n l) -> In k l.
Proof. intros H. rewrite <- (take_drop n l). apply in_or_app. by left. Qed.

Lemma stacked_sum_take_le (n : nat) (l : list string) (d : StackedDataPoint) :
  (forall k, In k l -> 0 <= field_number d k) ->
  stacked_sum (take n l) d <= stacked_sum l d.
Proof.
  intros H. rewrite <- (take_drop n l) at 2. rewrite stacked_sum_app.
  enough (0 <= stacked_sum (drop n l) d) by lia.
  apply stacked_sum_nonneg. intros k Hk. apply H.
  rewrite <- (take_drop n l). apply in_or_app. by right.
Qed.

Lemma fold_max_init (xs : list Z) (m : Z) : m <= fold_left Z.max xs m.
Proof.
  revert m. induction xs as [|x xs IH]; intros m; simpl; [lia|].
  specialize (IH (Z.max m x)). lia.
Qed.

Lemma fold_max_ge (xs : list Z) (x y : Z) : In y (x :: xs) -> y <= fold_left Z.max xs x.
Proof.
  revert x. induction xs as [|x' xs IH]; intros x Hy; simpl.
  - destruct Hy as [->|[]]. lia.
  - destruct Hy as [->|[->|Hy]].
    + pose proof (fold_max_init xs (Z.max y x')). lia.
    + pose proof (fold_max_init xs (Z.max x y)). lia.
    + apply IH. by right.
Qed.

Lemma spec_max_ge (stackedData : list StackedDataPoint) (cats : list string)
    (d : StackedDataPoint) :
  In d stackedData -> stacked_sum cats d <= spec_maxStackedTotal stackedData cats.
Proof.
  intros Hd. unfold spec_maxStackedTotal.
  destruct stackedData as [|d0 ds]; [done|]. simpl.
  apply fold_max_ge. destruct Hd as [->|Hd]; [by left|].
  right. by apply in_map.
Qed.

Lemma y_domain_numeric (stackedData : list StackedDataPoint) (cats : list string) :
  (forall d c, In d stackedData -> In c cats -> exists z, obj_get d c = JNum z) ->
  y_domain stackedData cats = Some (0, spec_maxStackedTotal stackedData cats).
Proof.
  intros Hnum.
  assert (Hmap : map (stack_total cats) stackedData =
                 map JNum (map (stacked_sum cats) stackedData)).
  { rewrite map_map. apply map_ext_in. intros d Hd.
    apply stack_total_numeric. intros c Hc. by apply Hnum. }
  unfold y_domain, maxY, d3_max, spec_maxStackedTotal. rewrite Hmap.
  destruct (map (stacked_sum cats) stackedData) as [|x xs]; simpl; [done|].
  rewrite d3_max_from_numbers. simpl.
  destruct (Z.eqb_spec (fold_left Z.max xs x) 0) as [->|]; done.
Qed.

(** X12: when every category field of every record is a non-negative
    number, the chart is drawn and every bar lies inside the y domain
    [0, maxY]: 0 <= d[0] <= d[1] <= maxY. *)
Theorem draw_chart_within_y_domain (ch : Chart)
    (Hnum : forall d k, In d (ch_stacked ch) -> In k (ch_categories ch) ->
       exists z, obj_get d k = JNum z /\ 0 <= z) :
  exists series m, draw_chart ch = Some series /\
    y_domain (ch_stacked ch) (ch_categories ch) = Some (0, m) /\
    forall sr b, In sr series -> In b (series_bars sr) ->
      exists lo hi, bar_base b = Some lo /\ bar_top b = Some hi /\ 0 <= lo /\ lo <= hi /\ hi <= m.
Proof.
  destruct ch as [quarters cats data ydom]. simpl in *.
  assert (Hnum' : forall d k, In d data -> In k cats -> exists z, obj_get d k = JNum z).
  { intros d k Hd Hk. destruct (Hnum d k Hd Hk) as (z & Hz & _). eauto. }
  assert (Hpos : forall d k, In d data -> In k cats -> 0 <= field_number d k).
  { intros d k Hd Hk. destruct (Hnum d k Hd Hk) as (z & Hz & Hz0).
    unfold field_number. by rewrite Hz. }
  exists (render quarters (stack_rest data [] cats)),
         (spec_maxStackedTotal data cats).
  split; [unfold draw_chart; cbn [ch_categories ch_stacked ch_quarters]; by rewrite (d3_stack_numeric_eq _ _ Hnum')|].
  split; [by apply y_domain_numeric|].
  intros sr b Hsr Hb.
  apply list_elem_of_In, list_elem_of_lookup_1 in Hsr as [i Hi].
  destruct (render_lookup _ _ _ _ Hi) as (s & Hs & ->). simpl in Hb.
  assert (Hlt : (i < length cats)%nat).
  { rewrite <- (length_stack_rest data []). by eapply lookup_lt_Some. }
  destruct (lookup_lt_is_Some_2 _ _ Hlt) as [k Hk].
  rewrite (stack_rest_lookup _ _ _ _ _ Hk) in Hs. injection Hs as <-.
  apply in_map_iff in Hb as (p & <- & Hp).
  unfold cum_layer in Hp. apply in_map_iff in Hp as (d & <- & Hd).
  unfold render_bar. simpl.
  eexists _, _. split; [reflexivity|]. split; [reflexivity|].
  assert (Hkin : In k cats) by (apply list_elem_of_In; by eapply list_elem_of_lookup_2).
  pose proof (stacked_sum_nonneg (take i cats) d) as H0.
  pose proof (stacked_sum_take_le (S i) cats d) as H1.
  pose proof (spec_max_ge data cats d Hd) as H2.
  rewrite (take_S_r _ _ _ Hk) in H1. rewrite stacked_sum_app in *.
  assert (Hf : 0 <= stacked_sum [k] d).
  { unfold stacked_sum. simpl. pose proof (Hpos d k Hd Hkin). lia. }
  assert (0 <= stacked_sum (take i cats) d).
  { apply H0. intros k' Hk'. apply Hpos; [done|]. by eapply in_take_in. }
  assert (stacked_sum (take i cats) d + stacked_sum [k] d <= stacked_sum cats d).
  { apply H1. intros k' Hk'. by apply Hpos. }
  lia.
Qed.

Lemma draw_chart_within_y_domain_witness :
  (forall d k, In d (ch_stacked nan_chart) -> In k ["A"; "C"]%string ->
     exists z, obj_get d k = JNum z /\ 0 <= z) /\
  exists series m,
    draw_chart (mkChart (ch_quarters nan_chart) ["A"; "C"]%string (ch_stacked nan_chart) None)
      = Some series /\
    y_domain (ch_stacked nan_chart) ["A"; "C"]%string = Some (0, m) /\
    forall sr b, In sr series -> In b (series_bars sr) ->
      exists lo hi, bar_base b = Some lo /\ bar_top b = Some hi /\ 0 <= lo /\ lo <= hi /\ hi <= m.
Proof.
  assert (H : forall d k, In d (ch_stacked nan_chart) -> In k ["A"; "C"]%string ->
     exists z, obj_get d k = JNum z /\ 0 <= z).
  { intros d k Hd Hk. simpl in Hd.
    destruct Hd as [<-|[<-|[]]]; destruct Hk as [<-|[<-|[]]];
      eexists; (split; [reflexivity|lia]). }
  split; [exact H|].
  exact (draw_chart_within_y_domain
           (mkChart (ch_quarters nan_chart) ["A"; "C"]%string (ch_stacked nan_chart) None) H).
Defined.

(** ** From the value columns to the stacked records *)

Lemma find_app_first {A} (f : A -> bool) (l1 l2 : list A) (x : A) :
  Forall (fun y => f y = false) l1 -> f x = true -> find f (l1 ++ x :: l2) = Some x.
Proof. induction 1 as [|y l1 Hy _ IH]; intros Hx; simpl; [by rewrite Hx|]. by rewrite Hy, IH. Qed.

Lemma prefix_sums_app (s : Z) (l1 l2 : list Z) :
  prefix_sums s (l1 ++ l2) = prefix_sums s l1 ++ prefix_sums (s + fold_right Z.add 0 l1) l2.
Proof.
  revert s. induction l1 as [|x l1 IH]; intros s; simpl; [by rewrite Z.add_0_r|].
  rewrite IH. do 3 f_equal. lia.
Qed.

Lemma length_prefix_sums (s : Z) (l : list Z) : length (prefix_sums s l) = length l.
Proof. revert s. induction l as [|x l IH]; intros s; simpl; [done|]. by rewrite IH. Qed.

Lemma values_of_app (k : string) (l1 l2 : list DataPoint) :
  values_of k (l1 ++ l2) = values_of k l1 ++ values_of k l2.
Proof. unfold values_of. by rewrite List.filter_app, map_app. Qed.

Lemma totals_of_app (k : string) (l1 l2 : list ProcessedDataPoint) :
  totals_of k (l1 ++ l2) = totals_of k l1 ++ totals_of k l2.
Proof. unfold totals_of. by rewrite List.filter_app, map_app. Qed.

Lemma totals_values_length (k : string) (P : list ProcessedDataPoint) (D : list DataPoint) :
  pdp_fields <$> P = dp_fields <$> D -> length (totals_of k P) = length (values_of k D).
Proof.
  revert D. induction P as [|p P IH]; intros [|d D] H; simpl in H; try done.
  assert (Hc : p_category p = category d) by (unfold pdp_fields, dp_fields in H; congruence).
  assert (HPD : pdp_fields <$> P = dp_fields <$> D) by (apply (f_equal tail) in H; exact H).
  unfold totals_of, values_of in *. simpl. rewrite Hc.
  destruct (String.eqb (category d) k); simpl; [f_equal|]; by apply IH.
Qed.

Lemma crt_first_point (k q : string) (Hk : ordinary_key k)
    (pre post : list DataPoint) (d : DataPoint)
    (Hq : quarter d = q) (Hc : category d = k)
    (Hpre : Forall (fun d' => quarter d' <> q \/ category d' <> k) pre)
    (Hnum : forall d', In d' (pre ++ d :: post) -> category d' = k ->
       exists v, value d' = JNum v) :
  exists p, find_point (computeRunningTotals (pre ++ d :: post)) q k = Some p /\
    runningTotal p = JNum (fold_right Z.add 0 (values_of k (pre ++ [d]))).
Proof.
  pose proof (computeRunningTotals_fields (pre ++ d :: post)) as Hf.
  pose proof (running_totals_ordinary k _ Hk Hnum) as Ht.
  rewrite fmap_app, fmap_cons in Hf.
  apply fmap_app_inv in Hf as (P1 & P2' & HP1 & HP2' & HP).
  symmetry in HP2'. apply fmap_cons_inv in HP2' as (p & P2 & Hpd & HP2 & ->).
  rewrite HP in Ht |- *. exists p. split.
  - unfold find_point. apply find_app_first.
    + clear - HP1 Hpre. revert pre HP1 Hpre.
      induction P1 as [|p' P1 IH]; intros [|d' pre] H Hpre; simpl in H; try done.
      injection H as Hq' Hc' _ HP1. inversion Hpre as [|? ? Hd' Hrest]; subst.
      constructor; [|by apply (IH pre)].
      apply andb_false_iff. rewrite <- Hq', <- Hc'.
      destruct Hd' as [H|H]; [left|right]; by apply String.eqb_neq.
    + unfold pdp_fields, dp_fields in Hpd. injection Hpd as Hq' Hc' _.
      rewrite <- Hq', <- Hc', Hq, Hc, !String.eqb_refl. done.
  - assert (Hlen : length (totals_of k P1) = length (values_of k pre))
      by (apply totals_values_length; by symmetry).
    unfold pdp_fields, dp_fields in Hpd. injection Hpd as Hq' Hc' Hv'.
    destruct (Hnum d ltac:(apply in_or_app; right; left; done) Hc) as [v Hv].
    rewrite totals_of_app in Ht. unfold totals_of in Ht at 2. simpl in Ht.
    rewrite <- Hc', Hc, String.eqb_refl in Ht. simpl in Ht.
    rewrite values_of_app in Ht. unfold values_of in Ht at 2. simpl in Ht.
    rewrite Hc, String.eqb_refl in Ht. simpl in Ht. rewrite Hv in Ht.
    rewrite prefix_sums_app, map_app in Ht. simpl in Ht.
    apply (f_equal (fun l => l !! length (totals_of k P1))) in Ht.
    rewrite lookup_app_r in Ht by lia. rewrite Nat.sub_diag in Ht. simpl in Ht.
    rewrite lookup_app_r in Ht by (rewrite length_map, length_prefix_sums; lia).
    rewrite length_map, length_prefix_sums, Hlen, Nat.sub_diag in Ht. simpl in Ht.
    injection Ht as ->. rewrite values_of_app.
    assert (Hd1 : values_of k [d] = [v]).
    { unfold values_of. simpl. rewrite Hc, String.eqb_refl. simpl. by rewrite Hv. }
    rewrite Hd1, fold_right_app. simpl. f_equal.
    clear. generalize (values_of k pre). induction l as [|x l IH]; simpl; lia.
Qed.

Lemma build_from_concat (quarters : list string) (groups : list group) :
  forall (rest : list group) (j : nat), drop j groups = rest ->
  Forall (fun g => gmeasures g <> []) rest ->
  build_from quarters groups j (map gname rest) =
    Some (concat (map (fun g => build_row quarters (gname g) (col_of g)) rest)).
Proof.
  induction rest as [|g rest IH]; intros j Hd Hm; [done|]. simpl.
  assert (Hj : groups !! j = Some g).
  { rewrite <- (Nat.add_0_r j), <- lookup_drop, Hd. done. }
  rewrite Hj. inversion Hm as [|? ? Hg Hm']; subst.
  unfold col_of. destruct (gmeasures g) as [|col cols]; [done|]. simpl.
  rewrite IH; [done| |done].
  rewrite (drop_S _ _ _ Hj) in Hd. by injection Hd.
Qed.

Lemma js_or_cell (col : list jsval) (i : nat) :
  (forall x, In x col -> x = JNull \/ exists z, x = JNum z) ->
  js_or (cell col i) (JNum 0) = JNum (value_z (cell col i)).
Proof.
  intros Hc. unfold cell. destruct (col !! i) as [x|] eqn:Hx; simpl; [|done].
  destruct (Hc x) as [->|[z ->]]; [by eapply list_elem_of_In, list_elem_of_lookup_2|done|].
  unfold js_or. simpl. destruct (Z.eqb_spec z 0) as [->|]; done.
Qed.

Lemma values_of_cons_same (c q : string) (v : jsval) (l : list DataPoint) :
  values_of c (mkDataPoint q c v :: l) = value_z v :: values_of c l.
Proof. unfold values_of. simpl. by rewrite String.eqb_refl. Qed.

Lemma values_of_nil (k : string) (l : list DataPoint) :
  (forall d, In d l -> category d <> k) -> values_of k l = [].
Proof.
  unfold values_of. induction l as [|d l IH]; intros H; simpl; [done|].
  destruct (String.eqb_spec (category d) k) as [E|E].
  - exfalso. exact (H d (or_introl eq_refl) E).
  - apply IH. intros d' Hd'. apply H. by right.
Qed.

Lemma values_of_imap (c : string) (col : list jsval) (qs : list string) (n : nat) :
  (forall x, In x col -> x = JNull \/ exists z, x = JNum z) ->
  values_of c (imap (fun i q => mkDataPoint q c (js_or (cell col (n + i)) (JNum 0))) qs) =
  map (fun i' => value_z (cell col i')) (seq n (length qs)).
Proof.
  intros Hc. revert n. induction qs as [|q qs IH]; intros n; [done|].
  rewrite imap_cons. simpl.
  rewrite (imap_ext _ (fun i q => mkDataPoint q c (js_or (cell col (S n + i)) (JNum 0)))).
  2:{ intros i x _. simpl. by rewrite Nat.add_succ_r. }
  rewrite values_of_cons_same, IH, Nat.add_0_r, js_or_cell by done. done.
Qed.

Lemma build_row_elem (quarters : list string) (c : string) (col : list jsval)
    (d : DataPoint) :
  In d (build_row quarters c col) ->
  category d = c /\ In (quarter d) quarters /\
  exists i, value d = js_or (cell col i) (JNum 0).
Proof.
  unfold build_row. intros H. apply list_elem_of_In, elem_of_lookup_imap_1 in H
    as (i & q & -> & Hq). simpl. split; [done|]. split; [|by exists i].
  by eapply list_elem_of_In, list_elem_of_lookup_2.
Qed.

Lemma running_total_at (quarters : list string) (groups : list group)
    (HQ : NoDup quarters) (HN : NoDup (map gname groups))
    (HO : Forall (fun g => ordinary_key (gname g)) groups)
    (HC : forall g x, In g groups -> In x (col_of g) -> x = JNull \/ exists z, x = JNum z)
    (i j : nat) (q : string) (g : group)
    (Hi : quarters !! i = Some q) (Hj : groups !! j = Some g) :
  exists p, find_point (computeRunningTotals
               (concat (map (fun g => build_row quarters (gname g) (col_of g)) groups)))
             q (gname g) = Some p /\
    runningTotal p = JNum (cell_total (col_of g) i).
Proof.
  set (row := fun g => build_row quarters (gname g) (col_of g)).
  set (F := fun i q => mkDataPoint q (gname g) (js_or (cell (col_of g) i) (JNum 0))).
  assert (Hg : In g groups) by (by eapply list_elem_of_In, list_elem_of_lookup_2).
  assert (Hti : length (take i quarters) = i).
  { apply length_take_le. apply lookup_lt_Some in Hi. lia. }
  assert (Hsplit : concat (map row groups) =
    (concat (map row (take j groups)) ++ imap F (take i quarters)) ++
    F i q :: (imap (fun n => F (length (take i quarters) + S n)%nat) (drop (S i) quarters) ++
              concat (map row (drop (S j) groups)))).
  { rewrite <- (take_drop_middle groups j g Hj) at 1.
    rewrite map_app, concat_app. cbn [map concat].
    change (row g) with (imap F quarters).
    rewrite <- (take_drop_middle quarters i q Hi) at 1.
    rewrite imap_app, imap_cons, Hti, Nat.add_0_r. rewrite <- !app_assoc. done. }
  assert (Hnames : forall g', In g' (take j groups) -> gname g' <> gname g).
  { intros g' Hg' Heq. rewrite <- (take_drop_middle groups j g Hj) in HN.
    rewrite map_app in HN. apply NoDup_app in HN as (_ & Hdisj & _).
    apply (Hdisj (gname g)); [|by left].
    rewrite <- Heq. apply list_elem_of_In. by apply in_map. }
  assert (Hquarters : q ∉ take i quarters).
  { intros Hin. rewrite <- (take_drop_middle quarters i q Hi) in HQ.
    apply NoDup_app in HQ as (_ & Hdisj & _). apply (Hdisj q Hin). set_solver. }
  assert (Hcol : forall x, In x (col_of g) -> x = JNull \/ exists z, x = JNum z)
    by (intros x; by apply HC).
  rewrite Hsplit.
  destruct (crt_first_point (gname g) q (proj1 (Forall_forall _ _) HO g ltac:(by apply list_elem_of_In))
              (concat (map row (take j groups)) ++ imap F (take i quarters))
              (imap (fun n => F (length (take i quarters) + S n)%nat) (drop (S i) quarters) ++
               concat (map row (drop (S j) groups)))
              (F i q)) as (p & Hp & Hrt).
  - done.
  - done.
  - apply Forall_app. split.
    + apply List.Forall_forall. intros d Hd. right.
      apply in_concat in Hd as (r & Hr & Hd). apply in_map_iff in Hr as (g' & <- & Hg').
      apply build_row_elem in Hd as (-> & _ & _). by apply Hnames.
    + apply List.Forall_forall. intros d Hd. left.
      apply list_elem_of_In, elem_of_lookup_imap_1 in Hd as (i' & q' & -> & Hq').
      simpl. intros ->. apply Hquarters. by eapply list_elem_of_lookup_2.
  - intros d Hd _. rewrite <- Hsplit in Hd.
    apply in_concat in Hd as (r & Hr & Hd). apply in_map_iff in Hr as (g' & <- & Hg').
    apply build_row_elem in Hd as (_ & _ & i' & ->).
    rewrite js_or_cell; [by eexists|]. intros x; by apply HC.
  - exists p. split; [exact Hp|]. rewrite Hrt. f_equal.
    rewrite values_of_app.
    assert (Hv1 : values_of (gname g) (concat (map row (take j groups))) = []).
    { apply values_of_nil.
      intros d Hd. apply in_concat in Hd as (r & Hr & Hd).
      apply in_map_iff in Hr as (g' & <- & Hg').
      apply build_row_elem in Hd as (-> & _ & _). by apply Hnames. }
    assert (Hv2 : values_of (gname g) (imap F (take i quarters)) =
                  map (fun i' => value_z (cell (col_of g) i')) (seq 0 i)).
    { rewrite <- Hti at 2. apply (values_of_imap _ _ _ 0 Hcol). }
    rewrite values_of_app, Hv1, Hv2. unfold F.
    rewrite values_of_cons_same, js_or_cell by done.
    unfold cell_total. rewrite seq_S, map_app. reflexivity.
Qed.

Lemma stacked_total_at (quarters : list string) (groups : list group)
    (HQ : NoDup quarters) (HN : NoDup (map gname groups))
    (HO : Forall (fun g => ordinary_key (gname g)) groups)
    (HC : forall g x, In g groups -> In x (col_of g) -> x = JNull \/ exists z, x = JNum z)
    (i j : nat) (q : string) (g : group)
    (Hi : quarters !! i = Some q) (Hj : groups !! j = Some g) :
  obj_get (stack_record (computeRunningTotals
             (concat (map (fun g => build_row quarters (gname g) (col_of g)) groups)))
           (map gname groups) q) (gname g) = JNum (cell_total (col_of g) i).
Proof.
  assert (Hg : In g groups) by (by eapply list_elem_of_In, list_elem_of_lookup_2).
  assert (Ho : ordinary_key (gname g))
    by (apply (proj1 (Forall_forall _ _) HO); by apply list_elem_of_In).
  rewrite stack_record_field.
  - destruct (running_total_at _ _ HQ HN HO HC i j q g Hi Hj) as (p & Hp & Hrt).
    unfold stack_field. by rewrite Hp, Hrt.
  - apply list_elem_of_In. by apply in_map.
  - by apply ordinary_not_proto.
Qed.

(** X13: on input that gets past the early returns, with distinct labels
    in the first category column, distinct group names none of which is
    inherited from [Object.prototype], and first measure columns holding
    numbers or [null]: the record drawn for the [i]-th sorted label holds,
    for every group, the sum of the first [i + 1] cells of the group's
    first measure column (missing or [null] cells counting 0).  The cells
    are summed by their position, not by the label they came with. *)
Theorem update_stacked_totals (localeCompare : string -> string -> comparison)
    (options : VisualUpdateOptions) (dv : DataView) (c : Categorical)
    (cc : CategoryColumn) (rest : list CategoryColumn) (v : ValueColumns)
    (Hh : head (dataViews options) = Some (Some dv))
    (Hc : categorical dv = Some c) (Hk : categories c = Some (cc :: rest))
    (Hv : values c = Some v) (Hl : vlength v <> 0%nat)
    (Hm : Forall (fun g => gmeasures g <> []) (grouped v))
    (HQ : NoDup (cat_values cc)) (HN : NoDup (map gname (grouped v)))
    (HO : Forall (fun g => ordinary_key (gname g)) (grouped v))
    (HC : forall g col x, In g (grouped v) -> gmeasures g !! 0%nat = Some col ->
       In x col -> x = JNull \/ exists z, x = JNum z) :
  exists ch, update localeCompare options =
      Some [Svg (vp_width options) (vp_height options) ch] /\
    forall i q j g col, ch_quarters ch !! i = Some q -> grouped v !! j = Some g ->
      gmeasures g !! 0%nat = Some col ->
      exists r, ch_stacked ch !! i = Some r /\ obj_get r (gname g) = JNum (cell_total col i).
Proof.
  assert (HQ' : NoDup (sort_strings localeCompare (cat_values cc)))
    by (by rewrite sort_strings_perm).
  assert (HC' : forall g x, In g (grouped v) -> In x (col_of g) ->
                  x = JNull \/ exists z, x = JNum z).
  { intros g x Hg Hx. unfold col_of in Hx.
    destruct (gmeasures g !! 0%nat) as [col|] eqn:Hcol; [|done].
    exact (HC g col x Hg Hcol Hx). }
  unfold update. rewrite Hh, Hc, Hk, Hv.
  destruct (Nat.eqb_spec (vlength v) 0); [done|].
  unfold buildDataArray. rewrite (build_from_concat _ _ (grouped v) 0 eq_refl Hm).
  eexists. split; [reflexivity|]. simpl.
  intros i q j g col Hi Hj Hcol.
  unfold transformToStackedData. rewrite map_as_fmap, list_lookup_fmap, Hi. simpl.
  eexists. split; [reflexivity|].
  rewrite (stacked_total_at _ _ HQ' HN HO HC' i j q g Hi Hj).
  unfold col_of. by rewrite Hcol.
Qed.

Lemma update_stacked_totals_witness :
  exists ch, update String.compare basic_options = Some [Svg 300 200 ch] /\
    forall i q j g col, ch_quarters ch !! i = Some q -> basic_groups !! j = Some g ->
      gmeasures g !! 0%nat = Some col ->
      exists r, ch_stacked ch !! i = Some r /\ obj_get r (gname g) = JNum (cell_total col i).
Proof.
  apply (update_stacked_totals String.compare basic_options
           (mkDataView (Some basic_categorical)) basic_categorical
           (mkCategoryColumn ["2023Q2"; "2023Q1"]%string) []
           (mkValueColumns 1 basic_groups)); try reflexivity.
  - discriminate.
  - repeat constructor; simpl; discriminate.
  - apply NoDup_cons_2; [|apply NoDup_singleton]. rewrite list_elem_of_singleton. discriminate.
  - apply NoDup_cons_2; [|apply NoDup_singleton]. rewrite list_elem_of_singleton. discriminate.
  - repeat constructor.
  - simpl. intros g col x Hg Hcol Hx.
    destruct Hg as [<-|[<-|[]]]; simpl in Hcol; injection Hcol as <-;
      destruct Hx as [<-|[<-|[]]]; right; eexists; reflexivity.
Defined.

Lemma update_well_formed (localeCompare : string -> string -> comparison)
    (options : VisualUpdateOptions) (dv : DataView) (c : Categorical)
    (cc : CategoryColumn) (rest : list CategoryColumn) (v : ValueColumns)
    (Hh : head (dataViews options) = Some (Some dv))
    (Hc : categorical dv = Some c) (Hk : categories c = Some (cc :: rest))
    (Hv : values c = Some v) (Hl : vlength v <> 0%nat)
    (Hm : Forall (fun g => gmeasures g <> []) (grouped v)) :
  let quarters := sort_strings localeCompare (cat_values cc) in
  let seriesCategories := map gname (grouped v) in
  let stackedData := transformToStackedData
        (computeRunningTotals
           (concat (map (fun g => build_row quarters (gname g) (col_of g)) (grouped v))))
        quarters seriesCategories in
  update localeCompare options =
    Some [Svg (vp_width options) (vp_height options)
            (mkChart quarters seriesCategories stackedData
               (y_domain stackedData seriesCategories))].
Proof.
  intros quarters seriesCategories stackedData.
  unfold update. rewrite Hh, Hc, Hk, Hv.
  destruct (Nat.eqb_spec (vlength v) 0); [done|].
  unfold buildDataArray. by rewrite (build_from_concat _ _ (grouped v) 0 eq_refl Hm).
Qed.

Lemma stacked_sum_groups (r : StackedDataPoint) (G : list group) (i : nat) :
  (forall g, In g G -> obj_get r (gname g) = JNum (cell_total (col_of g) i)) ->
  stacked_sum (map gname G) r = fold_right Z.add 0 (map (fun g => cell_total (col_of g) i) G).
Proof.
  unfold stacked_sum. induction G as [|g G IH]; intros H; simpl; [done|].
  rewrite IH by (intros g' Hg'; apply H; by right).
  unfold field_number. by rewrite (H g (or_introl eq_refl)).
Qed.

(** X14: on the input of X13, the chart is drawn with one series per
    group; the bar of group [j] at the [i]-th sorted label spans from the
    sum, over the groups before [j], of their sums of the first [i + 1]
    cells, to that sum plus group [j]'s own. *)
Theorem update_draws_stacked_totals (localeCompare : string -> string -> comparison)
    (options : VisualUpdateOptions) (dv : DataView) (c : Categorical)
    (cc : CategoryColumn) (rest : list CategoryColumn) (v : ValueColumns)
    (Hh : head (dataViews options) = Some (Some dv))
    (Hc : categorical dv = Some c) (Hk : categories c = Some (cc :: rest))
    (Hv : values c = Some v) (Hl : vlength v <> 0%nat)
    (Hm : Forall (fun g => gmeasures g <> []) (grouped v))
    (HQ : NoDup (cat_values cc)) (HN : NoDup (map gname (grouped v)))
    (HO : Forall (fun g => ordinary_key (gname g)) (grouped v))
    (HC : forall g col x, In g (grouped v) -> gmeasures g !! 0%nat = Some col ->
       In x col -> x = JNull \/ exists z, x = JNum z) :
  exists ch series, update localeCompare options =
      Some [Svg (vp_width options) (vp_height options) ch] /\
    draw_chart ch = Some series /\ length series = length (grouped v) /\
    forall i q j g sr b, ch_quarters ch !! i = Some q -> grouped v !! j = Some g ->
      series !! j = Some sr -> series_bars sr !! i = Some b ->
      bar_base b = Some (fold_right Z.add 0
                           (map (fun g' => cell_total (col_of g') i) (take j (grouped v)))) /\
      bar_top b = Some (fold_right Z.add 0
                          (map (fun g' => cell_total (col_of g') i) (take (S j) (grouped v)))).
Proof.
  pose proof (update_well_formed localeCompare _ _ _ _ _ _ Hh Hc Hk Hv Hl Hm) as Hu.
  simpl in Hu.
  set (quarters := sort_strings localeCompare (cat_values cc)) in *.
  set (groups := grouped v) in *.
  set (pd := computeRunningTotals
               (concat (map (fun g => build_row quarters (gname g) (col_of g)) groups))) in *.
  assert (HQ' : NoDup quarters) by (by unfold quarters; rewrite sort_strings_perm).
  assert (HC' : forall g x, In g groups -> In x (col_of g) ->
                  x = JNull \/ exists z, x = JNum z).
  { intros g x Hg Hx. unfold col_of in Hx.
    destruct (gmeasures g !! 0%nat) as [col|] eqn:Hcol; [|done].
    exact (HC g col x Hg Hcol Hx). }
  assert (Hrec : forall i q g, quarters !! i = Some q -> In g groups ->
            obj_get (stack_record pd (map gname groups) q) (gname g) =
            JNum (cell_total (col_of g) i)).
  { intros i q g Hi Hg. apply list_elem_of_In, list_elem_of_lookup_1 in Hg as [j Hj].
    exact (stacked_total_at _ _ HQ' HN HO HC' i j q g Hi Hj). }
  set (stacked := transformToStackedData pd quarters (map gname groups)) in *.
  assert (Hnum : forall d k, In d stacked -> In k (map gname groups) ->
                   exists z, obj_get d k = JNum z).
  { intros d k Hd Hk'. apply list_elem_of_In, list_elem_of_lookup_1 in Hd as [i Hi].
    unfold stacked, transformToStackedData in Hi.
    rewrite map_as_fmap, list_lookup_fmap in Hi.
    destruct (quarters !! i) as [q|] eqn:Hq; simpl in Hi; [|done]. injection Hi as <-.
    apply in_map_iff in Hk' as (g & <- & Hg). eexists. by apply (Hrec i q g). }
  eexists _, (render quarters (stack_rest stacked [] (map gname groups))).
  split; [exact Hu|].
  split; [unfold draw_chart; cbn [ch_categories ch_stacked ch_quarters];
          by rewrite (d3_stack_numeric_eq _ _ Hnum)|].
  split; [unfold render; by rewrite length_imap, length_stack_rest, length_map|].
  cbn [ch_quarters]. intros i q j g sr b Hi Hj Hsr Hb.
  destruct (render_lookup _ _ _ _ Hsr) as (s & Hs & ->). cbn [series_bars] in Hb.
  assert (Hk' : map gname groups !! j = Some (gname g))
    by (by rewrite map_as_fmap, list_lookup_fmap, Hj).
  rewrite (stack_rest_lookup _ _ _ _ _ Hk') in Hs. injection Hs as <-.
  unfold cum_layer in Hb. rewrite !map_as_fmap, !list_lookup_fmap in Hb.
  assert (Hr : stacked !! i = Some (stack_record pd (map gname groups) q)).
  { unfold stacked, transformToStackedData. by rewrite map_as_fmap, list_lookup_fmap, Hi. }
  rewrite Hr in Hb. simpl in Hb. injection Hb as <-.
  assert (Htake : forall n, stacked_sum (take n (map gname groups))
                              (stack_record pd (map gname groups) q) =
                  fold_right Z.add 0 (map (fun g' => cell_total (col_of g') i) (take n groups))).
  { intros n. rewrite firstn_map. apply stacked_sum_groups.
    intros g' Hg'. apply (Hrec i q g' Hi). by eapply in_take_in. }
  unfold render_bar. cbn [bar_base bar_top sp_base sp_top].
  rewrite <- (take_S_r _ _ _ Hk'), !Htake.
  split; done.
Qed.

Lemma update_draws_stacked_totals_witness :
  exists ch series, update String.compare basic_options = Some [Svg 300 200 ch] /\
    draw_chart ch = Some series /\ length series = length basic_groups /\
    forall i q j g sr b, ch_quarters ch !! i = Some q -> basic_groups !! j = Some g ->
      series !! j = Some sr -> series_bars sr !! i = Some b ->
      bar_base b = Some (fold_right Z.add 0
                           (map (fun g' => cell_total (col_of g') i) (take j basic_groups))) /\
      bar_top b = Some (fold_right Z.add 0
                          (map (fun g' => cell_total (col_of g') i) (take (S j) basic_groups))).
Proof.
  apply (update_draws_stacked_totals String.compare basic_options
           (mkDataView (Some basic_categorical)) basic_categorical
           (mkCategoryColumn ["2023Q2"; "2023Q1"]%string) []
           (mkValueColumns 1 basic_groups)); try reflexivity.
  - discriminate.
  - repeat constructor; simpl; discriminate.
  - apply NoDup_cons_2; [|apply NoDup_singleton]. rewrite list_elem_of_singleton. discriminate.
  - apply NoDup_cons_2; [|apply NoDup_singleton]. rewrite list_elem_of_singleton. discriminate.
  - repeat constructor.
  - simpl. intros g col x Hg Hcol Hx.
    destruct Hg as [<-|[<-|[]]]; simpl in Hcol; injection Hcol as <-;
      destruct Hx as [<-|[<-|[]]]; right; eexists; reflexivity.
Defined.
